(** * codemirror-json5: parse cache, linter adapter and cursor-path field

    A shallow embedding of [src/index.ts].  The file has three parts the
    properties below are about:

    - [handleParseError] and [json5ParseLinter], the linter adapter;
    - [json5ParseCache], a state field caching the parsed document;
    - [jsonCursorPath], a state field tracking the path under the cursor.

    JavaScript exceptions are modelled by the [Completion] type (a value
    either returns normally or throws an error object), [try]/[catch] by
    [try_catch].  [null] and [undefined] are [None]; an own property that
    may be missing from an object (tested with [in]) is an [option] field.
    Numbers that hold line numbers, columns and offsets are integers ([Z]).
    Strings stand for JavaScript strings, a character for a code unit, so
    that the length of a string is the number of its characters. *)

From Stdlib Require Import ZArith List String Ascii Bool Lia DecimalString.
Import ListNotations.

Local Open Scope string_scope.
Local Open Scope Z_scope.

Set Implicit Arguments.

(** ** Error objects and completions *)

Module JsError.

(** The constructor an error object was made with. *)
Inductive Class : Type :=
| SyntaxError
| RangeError
| TypeError
| OtherError.

(** An error object.  [lineNumber] and [columnNumber] are the two extra
    properties of [Json5SyntaxError]; they are [None] on an error object
    that does not have the property (['lineNumber' in e] is false). *)
Record t : Type := make {
  class : Class;
  message : string;
  lineNumber : option Z;
  columnNumber : option Z
}.

(** ['lineNumber' in e && 'columnNumber' in e] *)
Definition has_position (e : t) : bool :=
  match lineNumber e, columnNumber e with
  | Some _, Some _ => true
  | _, _ => false
  end.

End JsError.

(** The outcome of evaluating a JavaScript expression or function body. *)
Inductive Completion (A : Type) : Type :=
| Normal (a : A)
| Throw (e : JsError.t).

Arguments Normal {A} a.
Arguments Throw {A} e.

Definition bind {A B : Type} (c : Completion A) (k : A -> Completion B)
  : Completion B :=
  match c with
  | Normal a => k a
  | Throw e => Throw e
  end.

(** [try { body } catch (e) { handler e }] *)
Definition try_catch {A : Type} (body : Completion A)
  (handler : JsError.t -> Completion A) : Completion A :=
  match body with
  | Normal a => Normal a
  | Throw e => handler e
  end.

Definition fmap {A B : Type} (f : A -> B) (c : Completion A) : Completion B :=
  bind c (fun a => Normal (f a)).

Definition returns {A : Type} (c : Completion A) : bool :=
  match c with
  | Normal _ => true
  | Throw _ => false
  end.

Notation "x <- c ;; k" := (bind c (fun x => k))
  (at level 61, c at next level, right associativity).

(** ** Documents: the [Text] and [Line] of the editor library

    [Text] belongs to the editor framework ([@codemirror/state]), not to
    this repository.  It is modelled by the list of its lines, of which a
    document always has at least one.  Line breaks count for one character
    and [toString] joins the lines with a newline. *)

Module Line.

Record t : Type := make {
  from : Z;
  to : Z;
  number : Z;
  text : string
}.

End Line.

Module Text.

Record t : Type := make {
  first : string;
  rest : list string
}.

Definition newline : string := String (ascii_of_nat 10) EmptyString.

Definition toLines (d : t) : list string := first d :: rest d.

(** [doc.lines] *)
Definition lines (d : t) : Z := Z.of_nat (List.length (toLines d)).

Definition len (s : string) : Z := Z.of_nat (String.length s).

(** The characters taken by the lines of [ls], each followed by its break. *)
Fixpoint span (ls : list string) : Z :=
  match ls with
  | [] => 0
  | l :: ls' => len l + 1 + span ls'
  end.

(** [doc.length]: the last line has no break after it. *)
Definition length (d : t) : Z := span (toLines d) - 1.

(** [doc.toString()] *)
Definition toString (d : t) : string := String.concat newline (toLines d).

Definition show (n : Z) : string := NilEmpty.string_of_int (Z.to_int n).

Definition invalid_line (n : Z) (d : t) : JsError.t :=
  JsError.make JsError.RangeError
    ("Invalid line number " ++ show n ++ " in " ++ show (lines d)
       ++ "-line document")
    None None.

(** Offset at which line number [n] (1-based) starts. *)
Definition lineStart (d : t) (n : Z) : Z :=
  span (firstn (Z.to_nat (n - 1)) (toLines d)).

(** [doc.line(n)]: the description of line [n], counted from 1; a number
    that is not one of the document's lines raises a [RangeError]. *)
Definition line (d : t) (n : Z) : Completion Line.t :=
  if (n <? 1) || (n >? lines d) then Throw (invalid_line n d)
  else
    let txt := nth (Z.to_nat (n - 1)) (toLines d) EmptyString in
    let start := lineStart d n in
    Normal (Line.make start (start + len txt) n txt).

End Text.

(** ** Diagnostics *)

Module Diagnostic.

Inductive Severity : Type :=
| hint
| info
| warning
| error.

Record t : Type := make {
  from : Z;
  to : Z;
  message : string;
  severity : Severity
}.

End Diagnostic.

(** [handleParseError]: the one diagnostic reported for a parse error. *)
Definition handleParseError (doc : Text.t) (e : JsError.t)
  : Completion (list Diagnostic.t) :=
  pos <- match JsError.lineNumber e, JsError.columnNumber e with
         | Some lineNumber, Some columnNumber =>
             l <- Text.line doc lineNumber ;;
             Normal (Z.min (Line.from l + columnNumber - 1) (Text.length doc))
         | _, _ => Normal 0
         end ;;
  Normal [ Diagnostic.make pos pos (JsError.message e) Diagnostic.error ].

(** ** State fields of the editor framework

    [StateField.define({ create, update })]: a piece of state with its
    initial value and its transition on every transaction. *)

Record StateField (S T : Type) : Type := defineField {
  create : S;
  update : S -> T -> Completion S
}.

(** The values a field can hold: the initial one and those [update]
    returns from a value the field can hold. *)
Inductive reachable {S T : Type} (f : StateField S T) : S -> Prop :=
| reachable_create : reachable f (create f)
| reachable_update (s s' : S) (tx : T) :
    reachable f s -> update f s tx = Normal s' -> reachable f s'.

Section Json5.

(** What the repository takes from outside: the type of parsed values
    ([unknown] in the source), of pending results ([Promise<Diagnostic[]>]),
    of syntax trees and their nodes, the JSON5 parser, and the two helper
    functions imported from [./editor]. *)
Variable Value : Type.
Variable Promise : Type.
Variable SyntaxTree : Type.
Variable SyntaxNode : Type.

(** [JSON5.parse]: the parsed value, or the error it throws. *)
Variable JSON5_parse : string -> Completion Value.

(** [Json5ParseCache]: [obj] is [None] when it is [undefined]. *)
Record Json5ParseCache : Type := mkCache {
  err : option JsError.t;
  obj : option Value
}.

(** What the code reads of an [EditorState]: the document, the end of the
    main selection range, the syntax tree, and the value of the parse cache
    field: [state.field(json5ParseCache, false)] is [None] ([undefined])
    when the field is not part of the state, and [Some None] when it holds
    [null]. *)
Record EditorState : Type := mkState {
  doc : Text.t;
  selection_main_to : Z;
  tree : SyntaxTree;
  field_json5ParseCache : option (option Json5ParseCache)
}.

Record EditorView : Type := mkView {
  view_state : EditorState
}.

(** What the code reads of a [Transaction]. *)
Record Transaction : Type := mkTransaction {
  docChanged : bool;
  newDoc : Text.t;
  state : EditorState
}.

(** What a lint source gives back: the diagnostics, or a promise of them. *)
Inductive LintResult : Type :=
| Immediate (ds : list Diagnostic.t)
| Pending (p : Promise).

(** [StructureLinter<T>] *)
Definition StructureLinter : Type :=
  EditorView -> Value -> Completion LintResult.

(** [structureLinter?.(view, parsed) ?? []]: without a structural linter
    the call gives [undefined] and the result is the empty list; a
    structural linter gives diagnostics or a promise, as its type says,
    unless it throws. *)
Definition lintStructure (structureLinter : option StructureLinter)
  (view : EditorView) (parsed : Value) : Completion LintResult :=
  match structureLinter with
  | Some f => f view parsed
  | None => Normal (Immediate [])
  end.

(** The [try]/[catch] statement that ends the lint function. *)
Definition freshLint (structureLinter : option StructureLinter)
  (view : EditorView) : Completion LintResult :=
  let doc := doc (view_state view) in
  try_catch
    (parsed <- JSON5_parse (Text.toString doc) ;;
     lintStructure structureLinter view parsed)
    (fun e => fmap Immediate (handleParseError doc e)).

(** [json5ParseLinter(structureLinter)], applied to a view. *)
Definition json5ParseLinter (structureLinter : option StructureLinter)
  (view : EditorView) : Completion LintResult :=
  let doc := doc (view_state view) in
  let cached := field_json5ParseCache (view_state view) in
  match cached with
  | Some (Some cached) =>
      match err cached with
      | Some e => fmap Immediate (handleParseError doc e)
      | None =>
          match obj cached with
          | Some o => lintStructure structureLinter view o
          | None => freshLint structureLinter view
          end
      end
  | _ => freshLint structureLinter view
  end.

(** [oldValue?.obj] *)
Definition old_obj (oldValue : option Json5ParseCache) : option Value :=
  match oldValue with
  | Some c => obj c
  | None => None
  end.

(** [json5ParseCache] *)
Definition json5ParseCache : StateField (option Json5ParseCache) Transaction :=
  {| create := None;
     update := fun oldValue tx =>
       if negb (docChanged tx) then Normal oldValue
       else
         try_catch
           (parsed <- JSON5_parse (Text.toString (newDoc tx)) ;;
            Normal (Some (mkCache None (Some parsed))))
           (fun e => Normal (Some (mkCache (Some e) (old_obj oldValue)))) |}.

(** [nodeAtCursor] and [getPathAtNode] of [./editor]: the first gives a
    node or [null], the second a path, [null] or [undefined], which
    [currentPath ?? null] turns into a path or [null]. *)
Variable nodeAtCursor : EditorState -> Z -> option SyntaxNode.

(** A segment of a path: a property name or an array index. *)
Inductive Segment : Type :=
| Key (k : string)
| Index (i : Z).

Variable getPathAtNode : EditorState -> SyntaxNode -> option (list Segment).

Record JsonCursorPath : Type := mkCursorPath {
  path : option (list Segment);
  node : option SyntaxNode
}.

(** [jsonCursorPath] *)
Definition jsonCursorPath : StateField JsonCursorPath Transaction :=
  {| create := mkCursorPath None None;
     update := fun oldValue tx =>
       let cursorPos := selection_main_to (state tx) in
       let currentNode := nodeAtCursor (state tx) cursorPos in
       let currentPath :=
         match currentNode with
         | Some n => getPathAtNode (state tx) n
         | None => None
         end in
       Normal (mkCursorPath currentPath currentNode) |}.

End Json5.

Arguments Immediate {Promise} ds.
Arguments Pending {Promise} p.

(** The lint function finds no cache entry to use when the field is not
    installed, holds [null], or holds neither an error nor a value; it then
    goes on to its own parse. *)
Definition uncached {Value SyntaxTree : Type}
  (view : EditorView Value SyntaxTree) : bool :=
  match field_json5ParseCache (view_state view) with
  | Some (Some c) =>
      match err c, obj c with
      | None, None => true
      | _, _ => false
      end
  | _ => true
  end.

(** The lint function has parse error [e] to report: the cache entry holds
    it, or there is no cache entry to use and parsing the document throws
    it. *)
Definition parseErrorSeen {Value SyntaxTree : Type}
  (JSON5_parse : string -> Completion Value)
  (view : EditorView Value SyntaxTree) (e : JsError.t) : Prop :=
  (exists c, field_json5ParseCache (view_state view) = Some (Some c)
             /\ err c = Some e)
  \/ (uncached view = true
      /\ JSON5_parse (Text.toString (doc (view_state view))) = Throw e).


(** An error can be placed in [doc] when it has no line and column, or its
    line number is one of the lines of [doc]. *)
Definition locatable (doc : Text.t) (e : JsError.t) : bool :=
  match JsError.lineNumber e, JsError.columnNumber e with
  | Some lineNumber, Some _ =>
      (1 <=? lineNumber) && (lineNumber <=? Text.lines doc)
  | _, _ => true
  end.

(** The diagnostic of an error of message [msg] at offset [pos]. *)
Definition errorAt (pos : Z) (msg : string) : Diagnostic.t :=
  Diagnostic.make pos pos msg Diagnostic.error.

(** ** Sample instances

    Values, a parser and helper functions to run the definitions on. *)

#[local] Unset Elimination Schemes.

Inductive Json : Type :=
| JNull
| JBool (b : bool)
| JNumber (n : Z)
| JString (s : string)
| JArray (items : list Json)
| JObject (members : list (string * Json)).

#[local] Set Elimination Schemes.

Definition eofError (lineNumber columnNumber : Z) : JsError.t :=
  JsError.make JsError.SyntaxError
    ("JSON5: invalid end of input at " ++ Text.show lineNumber ++ ":"
       ++ Text.show columnNumber)
    (Some lineNumber) (Some columnNumber).

(** [JSON5.parse] on the texts of the examples; any other text is answered
    with an error that carries no position. *)
Definition sample_parse (s : string) : Completion Json :=
  if String.eqb s "{}" then Normal (JObject [])
  else if String.eqb s "[10,20,30]" then
    Normal (JArray [JNumber 10; JNumber 20; JNumber 30])
  else if String.eqb s "null" then Normal JNull
  else if String.eqb s "{" then Throw (eofError 1 2)
  else if String.eqb s "[10," then Throw (eofError 1 5)
  else Throw (JsError.make JsError.OtherError "text outside the examples"
                None None).

(** A syntax tree reduced to the ranges of the elements of one flat array,
    a node being the position of an element. *)
Definition SampleTree : Type := list (Z * Z).

Fixpoint elementAt (ranges : SampleTree) (pos : Z) (i : Z) : option Z :=
  match ranges with
  | [] => None
  | (from, to) :: ranges' =>
      if (from <=? pos) && (pos <=? to) then Some i
      else elementAt ranges' pos (i + 1)
  end.

Definition sample_nodeAtCursor (s : EditorState Json SampleTree) (pos : Z)
  : option Z :=
  elementAt (tree s) pos 0.

Definition sample_getPathAtNode (s : EditorState Json SampleTree) (n : Z)
  : option (list Segment) :=
  Some [Index n].

Definition oneLine (s : string) : Text.t := Text.make s [].

(** The element ranges of [[10,20,30]]; the other sample texts have no
    complete array. *)
Definition sampleTree (d : Text.t) : SampleTree :=
  if String.eqb (Text.toString d) "[10,20,30]" then [(1, 3); (4, 6); (7, 9)]
  else [].

Definition sampleState (d : Text.t) (cursor : Z)
  (cache : option (option (Json5ParseCache Json)))
  : EditorState Json SampleTree :=
  mkState d cursor (sampleTree d) cache.

Definition sampleView (text : string)
  (cache : option (option (Json5ParseCache Json)))
  : EditorView Json SampleTree :=
  mkView (sampleState (oneLine text) 0 cache).

(** A transaction that replaces the document by the one line [text]. *)
Definition sampleEdit (text : string) (cursor : Z)
  : Transaction Json SampleTree :=
  mkTransaction true (oneLine text) (sampleState (oneLine text) cursor None).

(** A transaction that only moves the cursor in the one-line document
    [text]. *)
Definition sampleMove (text : string) (cursor : Z)
  : Transaction Json SampleTree :=
  mkTransaction false (oneLine text) (sampleState (oneLine text) cursor None).

(** A structural linter that finds nothing. *)
Definition quietLinter : StructureLinter Json unit SampleTree :=
  fun _ _ => Normal (Immediate []).

(** ** Positions in a text

    The line and column a parser reports for an offset of the text it was
    given, lines being ended by a newline character. *)

Definition isNewline (c : ascii) : bool := Ascii.eqb c (ascii_of_nat 10).

(** No newline character in [s]. *)
Fixpoint singleLine (s : string) : bool :=
  match s with
  | EmptyString => true
  | String c s' => negb (isNewline c) && singleLine s'
  end.

(** The line and column of the character [p] characters further in [s],
    from the line and column of its first character; a newline character
    is the last of its line. *)
Fixpoint lineColumn (s : string) (p : nat) (line column : Z) : Z * Z :=
  match p, s with
  | S p', String c s' =>
      if isNewline c then lineColumn s' p' (line + 1) 1
      else lineColumn s' p' line (column + 1)
  | _, _ => (line, column)
  end.

(** Line and column, both counted from 1, of offset [p] in [s]. *)
Definition positionOf (s : string) (p : Z) : Z * Z :=
  lineColumn s (Z.to_nat p) 1 1.

(** A syntax error reported at a line and a column. *)
Definition errorOn (msg : string) (position : Z * Z) : JsError.t :=
  JsError.make JsError.SyntaxError msg (Some (fst position))
    (Some (snd position)).

(** ** Runs of transactions

    The editor applies the [update] of a field to each transaction in turn,
    starting from the value the field has. *)

Fixpoint runField {S T : Type} (f : StateField S T) (s : S) (txs : list T)
  : Completion S :=
  match txs with
  | [] => Normal s
  | tx :: txs' => s' <- update f s tx ;; runField f s' txs'
  end.

(** [oldValue?.err] *)
Definition old_err {Value : Type} (oldValue : option (Json5ParseCache Value))
  : option JsError.t :=
  match oldValue with
  | Some c => err c
  | None => None
  end.

(** The value parsed from the new document of a transaction that changes
    the document, when it parses. *)
Definition parsedValue {Value SyntaxTree : Type}
  (JSON5_parse : string -> Completion Value)
  (tx : Transaction Value SyntaxTree) : list Value :=
  if docChanged tx then
    match JSON5_parse (Text.toString (newDoc tx)) with
    | Normal v => [v]
    | Throw _ => []
    end
  else [].

(** The last value parsed in a run of transactions, [v0] when there is
    none. *)
Definition lastValue {Value SyntaxTree : Type}
  (JSON5_parse : string -> Completion Value)
  (txs : list (Transaction Value SyntaxTree)) (v0 : option Value)
  : option Value :=
  match rev (flat_map (parsedValue JSON5_parse) txs) with
  | v :: _ => Some v
  | [] => v0
  end.

(** The error of parsing the new document of the last transaction of a run
    that changes the document, [e0] when there is no such transaction. *)
Definition lastError {Value SyntaxTree : Type}
  (JSON5_parse : string -> Completion Value)
  (txs : list (Transaction Value SyntaxTree)) (e0 : option JsError.t)
  : option JsError.t :=
  match rev (filter (@docChanged Value SyntaxTree) txs) with
  | tx :: _ =>
      match JSON5_parse (Text.toString (newDoc tx)) with
      | Normal _ => None
      | Throw e => Some e
      end
  | [] => e0
  end.

(** The same view, with [field] for the parse cache field. *)
Definition withField {Value SyntaxTree : Type}
  (view : EditorView Value SyntaxTree)
  (field : option (option (Json5ParseCache Value)))
  : EditorView Value SyntaxTree :=
  let s := view_state view in
  mkView (mkState (doc s) (selection_main_to s) (tree s) field).

(** A structural linter that throws. *)
Definition failingLinter : StructureLinter Json unit SampleTree :=
  fun _ _ =>
    Throw (JsError.make JsError.TypeError "schema is not defined" None None).

(** ** The patterns of the language definition

    The regular expressions of [json5Language] are all of one shape: [^],
    then character classes, some of them starred, then [$] or nothing.
    [test] is the backtracking match of such a pattern from the start of a
    string. *)

Inductive Atom : Type :=
| One (class : ascii -> bool)
| Many (class : ascii -> bool).

Record Pattern : Type := mkPattern {
  atoms : list Atom;
  toEnd : bool
}.

Definition isEmpty (s : string) : bool :=
  match s with
  | EmptyString => true
  | String _ _ => false
  end.

(** [class*] followed by what [k] accepts. *)
Fixpoint matchMany (class : ascii -> bool) (k : string -> bool) (s : string)
  : bool :=
  k s
  || match s with
     | String c s' => class c && matchMany class k s'
     | EmptyString => false
     end.

Fixpoint matchAtoms (atoms : list Atom) (toEnd : bool) (s : string) : bool :=
  match atoms with
  | [] => if toEnd then isEmpty s else true
  | One class :: atoms' =>
      match s with
      | String c s' => class c && matchAtoms atoms' toEnd s'
      | EmptyString => false
      end
  | Many class :: atoms' => matchMany class (matchAtoms atoms' toEnd) s
  end.

(** [pattern.test(s)] *)
Definition test (p : Pattern) (s : string) : bool :=
  matchAtoms (atoms p) (toEnd p) s.

(** [\s] on the code units below 256: tab, line feed, vertical tab, form
    feed, carriage return, space and no-break space. *)
Definition isSpace (c : ascii) : bool :=
  let n := nat_of_ascii c in
  (Nat.leb 9 n && Nat.leb n 13) || Nat.eqb n 32 || Nat.eqb n 160.

Definition isChar (c : ascii) : ascii -> bool := Ascii.eqb c.

(** [[}\]]] *)
Definition isCloser (c : ascii) : bool :=
  isChar "}" c || isChar "]" c.

(** [indentOnInput: /^\s*[}\]]$/] *)
Definition indentOnInput : Pattern :=
  mkPattern [Many isSpace; One isCloser] true.

(** [Object: continuedIndent({ except: /^\s*\}/ })] *)
Definition objectExcept : Pattern :=
  mkPattern [Many isSpace; One (isChar "}")] false.

(** [Array: continuedIndent({ except: /^\s*\]/ })] *)
Definition arrayExcept : Pattern :=
  mkPattern [Many isSpace; One (isChar "]")] false.

(** Every character of [s] is in [class]. *)
Fixpoint allOf (class : ascii -> bool) (s : string) : bool :=
  match s with
  | EmptyString => true
  | String c s' => class c && allOf class s'
  end.

(** A parser that finds every text unfinished: it throws the error of an
    end of input, at the line and column the JSON5 parser reports for the
    end of the text. *)
Definition unfinishedParse (s : string) : Completion Json :=
  let position := positionOf s (Text.len s) in
  Throw (eofError (fst position) (snd position)).

(** The two lines [[1,] and [x]]. *)
Definition twoLines : Text.t := Text.make "[1," ["x]"].

(** A document of one line that holds a newline character, [{] then the
    newline: what the text [{] followed by a line feed becomes in an editor
    set up with another line separator. *)
Definition brokenLine : Text.t := Text.make ("{" ++ Text.newline) [].

(** ** The document model *)

Unset Implicit Arguments.

Lemma len_append (s1 s2 : string) :
  Text.len (s1 ++ s2) = Text.len s1 + Text.len s2.
Proof.
  unfold Text.len.
  induction s1 as [|c s1 IH]; simpl String.length.
  - reflexivity.
  - simpl in IH. lia.
Qed.

Lemma span_nonneg (ls : list string) : 0 <= Text.span ls.
Proof.
  induction ls as [|l ls IH]; simpl; unfold Text.len; lia.
Qed.

Lemma span_app (l1 l2 : list string) :
  Text.span (l1 ++ l2) = Text.span l1 + Text.span l2.
Proof.
  induction l1 as [|l l1 IH]; simpl; lia.
Qed.

Lemma len_concat (l : string) (ls : list string) :
  Text.len (String.concat Text.newline (l :: ls)) = Text.span (l :: ls) - 1.
Proof.
  revert l.
  induction ls as [|l' ls IH]; intro l.
  - cbn [String.concat Text.span]. lia.
  - change (String.concat Text.newline (l :: l' :: ls))
      with (l ++ Text.newline ++ String.concat Text.newline (l' :: ls)).
    rewrite !len_append, IH.
    change (Text.len Text.newline) with 1.
    cbn [Text.span]. lia.
Qed.

(** [doc.toString().length = doc.length] *)
Lemma length_toString (d : Text.t) :
  Text.len (Text.toString d) = Text.length d.
Proof.
  unfold Text.toString, Text.length, Text.toLines.
  apply len_concat.
Qed.

Lemma span_firstn_nth (ls : list string) (k : nat) :
  (k < List.length ls)%nat ->
  Text.span (firstn k ls) + Text.len (nth k ls EmptyString) + 1
  <= Text.span ls.
Proof.
  revert k.
  induction ls as [|l ls IH]; intros k Hk.
  - simpl in Hk. lia.
  - destruct k as [|k].
    + cbn [firstn nth Text.span]. pose proof (span_nonneg ls). lia.
    + cbn [firstn nth Text.span].
      simpl in Hk. specialize (IH k ltac:(lia)). lia.
Qed.

(** A line of the document ends at or before the end of the document. *)
Lemma line_within_document (d : Text.t) (n : Z) (l : Line.t) :
  Text.line d n = Normal l ->
  0 <= Line.from l <= Line.to l /\ Line.to l <= Text.length d.
Proof.
  unfold Text.line.
  destruct ((n <? 1) || (n >? Text.lines d)) eqn:Hrange; [discriminate|].
  intro H. injection H as <-. cbn [Line.from Line.to].
  apply orb_false_iff in Hrange. destruct Hrange as [Hlo Hhi].
  apply Z.ltb_ge in Hlo.
  rewrite Z.gtb_ltb in Hhi. apply Z.ltb_ge in Hhi.
  unfold Text.lines in Hhi. unfold Text.lineStart, Text.length.
  pose proof (span_firstn_nth (Text.toLines d) (Z.to_nat (n - 1))
                ltac:(lia)) as Hspan.
  pose proof (span_nonneg (firstn (Z.to_nat (n - 1)) (Text.toLines d))).
  cbn [nth Text.toLines] in Hspan |- *.
  unfold Text.len in *. lia.
Qed.

Lemma line_in_range (d : Text.t) (n : Z) :
  1 <= n <= Text.lines d ->
  exists l, Text.line d n = Normal l /\ Line.from l = Text.lineStart d n.
Proof.
  intros [Hlo Hhi]. unfold Text.line.
  replace (n <? 1) with false by (symmetry; apply Z.ltb_ge; lia).
  replace (n >? Text.lines d) with false
    by (symmetry; rewrite Z.gtb_ltb; apply Z.ltb_ge; lia).
  cbn [orb]. eexists. split; reflexivity.
Qed.

Lemma line_out_of_range (d : Text.t) (n : Z) :
  n < 1 \/ Text.lines d < n ->
  Text.line d n = Throw (Text.invalid_line n d).
Proof.
  intros Hout. unfold Text.line.
  destruct Hout as [Hlo | Hhi].
  - replace (n <? 1) with true by (symmetry; apply Z.ltb_lt; lia).
    reflexivity.
  - replace (n >? Text.lines d) with true
      by (symmetry; rewrite Z.gtb_ltb; apply Z.ltb_lt; lia).
    rewrite orb_true_r. reflexivity.
Qed.

(** ** [handleParseError] *)

Lemma handleParseError_no_position (doc : Text.t) (e : JsError.t) :
  JsError.has_position e = false ->
  handleParseError doc e = Normal [errorAt 0 (JsError.message e)].
Proof.
  unfold JsError.has_position, handleParseError.
  destruct (JsError.lineNumber e), (JsError.columnNumber e);
    intro H; try discriminate; reflexivity.
Qed.

Lemma handleParseError_in_range (doc : Text.t) (e : JsError.t) (ln cn : Z) :
  JsError.lineNumber e = Some ln ->
  JsError.columnNumber e = Some cn ->
  1 <= ln <= Text.lines doc ->
  handleParseError doc e =
  Normal [errorAt (Z.min (Text.lineStart doc ln + cn - 1) (Text.length doc))
            (JsError.message e)].
Proof.
  intros Hl Hc Hrange. unfold handleParseError.
  rewrite Hl, Hc.
  destruct (line_in_range doc ln Hrange) as (l & -> & Hfrom).
  cbn [bind]. rewrite Hfrom. reflexivity.
Qed.

Lemma handleParseError_out_of_range (doc : Text.t) (e : JsError.t)
  (ln cn : Z) :
  JsError.lineNumber e = Some ln ->
  JsError.columnNumber e = Some cn ->
  ln < 1 \/ Text.lines doc < ln ->
  handleParseError doc e = Throw (Text.invalid_line ln doc).
Proof.
  intros Hl Hc Hout. unfold handleParseError.
  rewrite Hl, Hc, (line_out_of_range doc ln Hout). reflexivity.
Qed.

(** [handleParseError] returns exactly on the errors it can place. *)
Lemma handleParseError_returns (doc : Text.t) (e : JsError.t) :
  returns (handleParseError doc e) = locatable doc e.
Proof.
  unfold locatable.
  destruct (JsError.lineNumber e) as [ln|] eqn:Hl;
    [destruct (JsError.columnNumber e) as [cn|] eqn:Hc|].
  - destruct ((1 <=? ln) && (ln <=? Text.lines doc)) eqn:Hrange.
    + apply andb_true_iff in Hrange. destruct Hrange as [H1 H2].
      apply Z.leb_le in H1. apply Z.leb_le in H2.
      rewrite (handleParseError_in_range doc e ln cn Hl Hc (conj H1 H2)).
      reflexivity.
    + rewrite (handleParseError_out_of_range doc e ln cn Hl Hc).
      * reflexivity.
      * apply andb_false_iff in Hrange.
        destruct Hrange as [H|H]; apply Z.leb_gt in H; lia.
  - rewrite handleParseError_no_position; [reflexivity|].
    unfold JsError.has_position. rewrite Hl, Hc. reflexivity.
  - rewrite handleParseError_no_position; [reflexivity|].
    unfold JsError.has_position. rewrite Hl. reflexivity.
Qed.

(** Whatever [handleParseError] returns is one zero-width diagnostic of
    severity error, carrying the error's message, not after the end of the
    document. *)
Lemma handleParseError_one_diagnostic (doc : Text.t) (e : JsError.t)
  (ds : list Diagnostic.t) :
  handleParseError doc e = Normal ds ->
  exists pos, ds = [errorAt pos (JsError.message e)]
              /\ pos <= Text.length doc.
Proof.
  unfold handleParseError.
  assert (Hlen : 0 <= Text.length doc).
  { unfold Text.length, Text.toLines. cbn [Text.span].
    pose proof (span_nonneg (Text.rest doc)). unfold Text.len. lia. }
  destruct (JsError.lineNumber e) as [ln|];
    [destruct (JsError.columnNumber e) as [cn|]|].
  - destruct (Text.line doc ln) as [l|e']; cbn [bind]; [|discriminate].
    intro H. injection H as <-. eexists. split; [reflexivity|]. lia.
  - cbn [bind]. intro H. injection H as <-. exists 0. split; [reflexivity|lia].
  - cbn [bind]. intro H. injection H as <-. exists 0. split; [reflexivity|lia].
Qed.

(** ** The parse cache *)

Section ParseCacheProperties.

Variables Value SyntaxTree : Type.
Variable JSON5_parse : string -> Completion Value.

Local Abbreviation Cache := (Json5ParseCache Value).
Local Abbreviation Tx := (Transaction Value SyntaxTree).

Lemma parseCache_update_unchanged (oldValue : option Cache) (tx : Tx) :
  docChanged tx = false ->
  update (json5ParseCache SyntaxTree JSON5_parse) oldValue tx
  = Normal oldValue.
Proof.
  intro Hdoc. cbn [update json5ParseCache]. rewrite Hdoc. reflexivity.
Qed.

Lemma parseCache_update_parsed (oldValue : option Cache) (tx : Tx)
  (v : Value) :
  docChanged tx = true ->
  JSON5_parse (Text.toString (newDoc tx)) = Normal v ->
  update (json5ParseCache SyntaxTree JSON5_parse) oldValue tx
  = Normal (Some (mkCache None (Some v))).
Proof.
  intros Hdoc Hparse. cbn [update json5ParseCache].
  rewrite Hdoc, Hparse. reflexivity.
Qed.

Lemma parseCache_update_failed (oldValue : option Cache) (tx : Tx)
  (e : JsError.t) :
  docChanged tx = true ->
  JSON5_parse (Text.toString (newDoc tx)) = Throw e ->
  update (json5ParseCache SyntaxTree JSON5_parse) oldValue tx
  = Normal (Some (mkCache (Some e) (old_obj oldValue))).
Proof.
  intros Hdoc Hparse. cbn [update json5ParseCache].
  rewrite Hdoc, Hparse. reflexivity.
Qed.

(** The update of the parse cache never throws. *)
Lemma parseCache_update_returns (oldValue : option Cache) (tx : Tx) :
  exists s,
    update (json5ParseCache SyntaxTree JSON5_parse) oldValue tx = Normal s.
Proof.
  destruct (docChanged tx) eqn:Hdoc.
  - destruct (JSON5_parse (Text.toString (newDoc tx))) as [v|e] eqn:Hparse.
    + eexists. eapply parseCache_update_parsed; eassumption.
    + eexists. eapply parseCache_update_failed; eassumption.
  - eexists. now apply parseCache_update_unchanged.
Qed.

(** C1.  When a transaction changes the document and the new text does not
    parse, the updated cache holds the error the parser threw, together with
    the value of the previous cache state: the last parsed value stays
    available, and it is undefined ([None]) when there was no previous
    state or the previous state had no value. *)
Theorem failed_parse_keeps_last_value (oldValue : option Cache) (tx : Tx)
  (e : JsError.t) :
  docChanged tx = true ->
  JSON5_parse (Text.toString (newDoc tx)) = Throw e ->
  exists c,
    update (json5ParseCache SyntaxTree JSON5_parse) oldValue tx
    = Normal (Some c)
    /\ err c = Some e
    /\ obj c = match oldValue with
               | Some old => obj old
               | None => None
               end.
Proof.
  intros Hdoc Hparse.
  exists (mkCache (Some e) (old_obj oldValue)).
  split; [now apply parseCache_update_failed|].
  split; reflexivity.
Qed.

(** C2.  A transaction that does not change the document leaves the parse
    cache as it was: the update returns the previous state itself, and it
    does so whatever the parser is, which it does not call. *)
Theorem unchanged_text_keeps_cache (oldValue : option Cache) (tx : Tx) :
  docChanged tx = false ->
  update (json5ParseCache SyntaxTree JSON5_parse) oldValue tx
  = Normal oldValue
  /\ forall other_parse : string -> Completion Value,
       update (json5ParseCache SyntaxTree other_parse) oldValue tx
       = Normal oldValue.
Proof.
  intro Hdoc. split.
  - now apply parseCache_update_unchanged.
  - intro other_parse. cbn [update json5ParseCache].
    rewrite Hdoc. reflexivity.
Qed.

(** C3.  When a transaction changes the document and the new text parses,
    the updated cache has no error and holds the value parsed from the whole
    new text; the previous state plays no part in it. *)
Theorem parsed_text_replaces_cache (oldValue : option Cache) (tx : Tx)
  (v : Value) :
  docChanged tx = true ->
  JSON5_parse (Text.toString (newDoc tx)) = Normal v ->
  update (json5ParseCache SyntaxTree JSON5_parse) oldValue tx
  = Normal (Some (mkCache None (Some v)))
  /\ forall otherValue : option Cache,
       update (json5ParseCache SyntaxTree JSON5_parse) otherValue tx
       = update (json5ParseCache SyntaxTree JSON5_parse) oldValue tx.
Proof.
  intros Hdoc Hparse. split.
  - now apply parseCache_update_parsed.
  - intro otherValue.
    rewrite !(parseCache_update_parsed _ tx v Hdoc Hparse). reflexivity.
Qed.

End ParseCacheProperties.

(** The document [{}] was parsed, then edited into [{]: the cache reports
    the error at 1:2 and still holds the empty object. *)
Lemma failed_parse_keeps_last_value_witness :
  exists c,
    update (json5ParseCache SampleTree sample_parse)
      (Some (mkCache None (Some (JObject [])))) (sampleEdit "{" 1)
    = Normal (Some c)
    /\ err c = Some (eofError 1 2)
    /\ obj c = Some (JObject []).
Proof.
  exact (failed_parse_keeps_last_value Json SampleTree sample_parse
           (Some (mkCache None (Some (JObject [])))) (sampleEdit "{" 1)
           (eofError 1 2) eq_refl eq_refl).
Defined.

(** Moving the cursor in the document [{}] keeps the cached empty object. *)
Lemma unchanged_text_keeps_cache_witness :
  update (json5ParseCache SampleTree sample_parse)
    (Some (mkCache None (Some (JObject [])))) (sampleMove "{}" 2)
  = Normal (Some (mkCache None (Some (JObject [])))).
Proof.
  exact (proj1 (unchanged_text_keeps_cache Json SampleTree sample_parse
                  (Some (mkCache None (Some (JObject []))))
                  (sampleMove "{}" 2) eq_refl)).
Defined.

(** Repairing [{] into [{}] drops the error and the stale value. *)
Lemma parsed_text_replaces_cache_witness :
  update (json5ParseCache SampleTree sample_parse)
    (Some (mkCache (Some (eofError 1 2)) (Some JNull))) (sampleEdit "{}" 2)
  = Normal (Some (mkCache None (Some (JObject [])))).
Proof.
  exact (proj1 (parsed_text_replaces_cache Json SampleTree sample_parse
                  (Some (mkCache (Some (eofError 1 2)) (Some JNull)))
                  (sampleEdit "{}" 2) (JObject []) eq_refl eq_refl)).
Defined.

(** ** The lint function *)

Section LinterProperties.

Variables Value Promise SyntaxTree : Type.
Variable JSON5_parse : string -> Completion Value.

Local Abbreviation View := (EditorView Value SyntaxTree).
Local Abbreviation Cache := (Json5ParseCache Value).
Local Abbreviation Linter := (StructureLinter Value Promise SyntaxTree).

Lemma lint_cached_error (sl : option Linter) (view : View) (c : Cache)
  (e : JsError.t) :
  field_json5ParseCache (view_state view) = Some (Some c) ->
  err c = Some e ->
  json5ParseLinter JSON5_parse sl view =
  fmap Immediate (handleParseError (doc (view_state view)) e).
Proof.
  intros Hfield Herr. unfold json5ParseLinter.
  rewrite Hfield, Herr. reflexivity.
Qed.

Lemma lint_cached_value (sl : option Linter) (view : View) (c : Cache)
  (v : Value) :
  field_json5ParseCache (view_state view) = Some (Some c) ->
  err c = None ->
  obj c = Some v ->
  json5ParseLinter JSON5_parse sl view = lintStructure sl view v.
Proof.
  intros Hfield Herr Hobj. unfold json5ParseLinter.
  rewrite Hfield, Herr, Hobj. reflexivity.
Qed.

Lemma lint_uncached (sl : option Linter) (view : View) :
  uncached view = true ->
  json5ParseLinter JSON5_parse sl view = freshLint JSON5_parse sl view.
Proof.
  unfold uncached, json5ParseLinter.
  destruct (field_json5ParseCache (view_state view)) as [[c|]|];
    try reflexivity.
  destruct (err c), (obj c); intro H; try discriminate; reflexivity.
Qed.

Lemma freshLint_parse_error (sl : option Linter) (view : View)
  (e : JsError.t) :
  JSON5_parse (Text.toString (doc (view_state view))) = Throw e ->
  freshLint JSON5_parse sl view =
  fmap Immediate (handleParseError (doc (view_state view)) e).
Proof.
  intro Hparse. unfold freshLint. rewrite Hparse. reflexivity.
Qed.

Lemma freshLint_parsed (sl : option Linter) (view : View) (v : Value) :
  JSON5_parse (Text.toString (doc (view_state view))) = Normal v ->
  freshLint JSON5_parse sl view =
  try_catch (lintStructure sl view v)
    (fun e => fmap Immediate (handleParseError (doc (view_state view)) e)).
Proof.
  intro Hparse. unfold freshLint. rewrite Hparse. reflexivity.
Qed.

(** Every parse error the lint function has to report goes through
    [handleParseError]. *)
Lemma lint_parse_error (sl : option Linter) (view : View) (e : JsError.t) :
  parseErrorSeen JSON5_parse view e ->
  json5ParseLinter JSON5_parse sl view =
  fmap Immediate (handleParseError (doc (view_state view)) e).
Proof.
  intros [(c & Hfield & Herr) | (Hun & Hparse)].
  - now apply lint_cached_error with c.
  - rewrite lint_uncached by assumption.
    now apply freshLint_parse_error.
Qed.

(** An error whose line is not a line of the document makes the line
    lookup throw, and nothing catches that. *)
Lemma lint_line_out_of_range (sl : option Linter) (view : View)
  (e : JsError.t) (ln cn : Z) :
  parseErrorSeen JSON5_parse view e ->
  JsError.lineNumber e = Some ln ->
  JsError.columnNumber e = Some cn ->
  ln < 1 \/ Text.lines (doc (view_state view)) < ln ->
  json5ParseLinter JSON5_parse sl view =
  Throw (Text.invalid_line ln (doc (view_state view))).
Proof.
  intros Hseen Hl Hc Hout.
  rewrite (lint_parse_error sl view e Hseen).
  rewrite (handleParseError_out_of_range _ e ln cn Hl Hc Hout).
  reflexivity.
Qed.

(** A structural linter that throws while the lint function parses on its
    own is treated as a parse error. *)
Lemma freshLint_linter_throws (f : Linter) (view : View) (v : Value)
  (e : JsError.t) :
  JSON5_parse (Text.toString (doc (view_state view))) = Normal v ->
  f view v = Throw e ->
  freshLint JSON5_parse (Some f) view =
  fmap Immediate (handleParseError (doc (view_state view)) e).
Proof.
  intros Hparse Hf. rewrite (freshLint_parsed _ _ v Hparse).
  cbn [lintStructure]. rewrite Hf. reflexivity.
Qed.

(** With a cache entry that has no error, a structural linter that throws
    makes the lint function throw. *)
Lemma lint_cached_linter_throws (f : Linter) (view : View) (c : Cache)
  (v : Value) (e : JsError.t) :
  field_json5ParseCache (view_state view) = Some (Some c) ->
  err c = None ->
  obj c = Some v ->
  f view v = Throw e ->
  json5ParseLinter JSON5_parse (Some f) view = Throw e.
Proof.
  intros Hfield Herr Hobj Hf.
  rewrite (lint_cached_value _ view c v Hfield Herr Hobj).
  exact Hf.
Qed.

(** The lint function ends in one of three ways. *)
Lemma lint_cases (sl : option Linter) (view : View) :
  (exists e, parseErrorSeen JSON5_parse view e)
  \/ (exists v, json5ParseLinter JSON5_parse sl view
                = lintStructure sl view v)
  \/ (exists v, json5ParseLinter JSON5_parse sl view
                = try_catch (lintStructure sl view v)
                    (fun e => fmap Immediate
                                (handleParseError (doc (view_state view)) e))).
Proof.
  destruct (uncached view) eqn:Hun.
  - destruct (JSON5_parse (Text.toString (doc (view_state view))))
      as [v|e] eqn:Hparse.
    + right. right. exists v.
      rewrite lint_uncached by assumption. now apply freshLint_parsed.
    + left. exists e. right. split; assumption.
  - unfold uncached in Hun.
    destruct (field_json5ParseCache (view_state view)) as [[c|]|] eqn:Hfield;
      try discriminate.
    destruct (err c) as [e|] eqn:Herr.
    + left. exists e. left. exists c. split; assumption.
    + destruct (obj c) as [v|] eqn:Hobj; [|discriminate].
      right. left. exists v. now apply lint_cached_value with c.
Qed.

(** C4, as the code has it.  When the lint function has a parse error to
    report, from the cache entry or from its own parse of the document, and
    the line number of the error is one of the lines of the document, it
    returns exactly one diagnostic: zero-width, of severity error, with the
    error's message, at the offset of the start of the line plus the column
    minus one, or at the end of the document when that offset is past it. *)
Theorem parse_error_diagnostic (sl : option Linter) (view : View)
  (e : JsError.t) (ln cn : Z) :
  parseErrorSeen JSON5_parse view e ->
  JsError.lineNumber e = Some ln ->
  JsError.columnNumber e = Some cn ->
  1 <= ln <= Text.lines (doc (view_state view)) ->
  exists pos,
    json5ParseLinter JSON5_parse sl view
    = Normal (Immediate
                [Diagnostic.make pos pos (JsError.message e)
                   Diagnostic.error])
    /\ pos = Z.min (Text.lineStart (doc (view_state view)) ln + cn - 1)
               (Text.length (doc (view_state view)))
    /\ pos <= Text.length (doc (view_state view)).
Proof.
  intros Hseen Hl Hc Hrange.
  eexists. split; [|split; [reflexivity|]].
  - rewrite (lint_parse_error sl view e Hseen).
    rewrite (handleParseError_in_range _ e ln cn Hl Hc Hrange).
    reflexivity.
  - apply Z.le_min_r.
Qed.

(** C9.  When the parse error the lint function has to report lacks the
    line number or the column number, the lint function still returns
    exactly one zero-width diagnostic of severity error, at offset 0. *)
Theorem error_without_position_at_start (sl : option Linter) (view : View)
  (e : JsError.t) :
  parseErrorSeen JSON5_parse view e ->
  JsError.has_position e = false ->
  json5ParseLinter JSON5_parse sl view
  = Normal (Immediate
              [Diagnostic.make 0 0 (JsError.message e) Diagnostic.error]).
Proof.
  intros Hseen Hpos.
  rewrite (lint_parse_error sl view e Hseen).
  rewrite (handleParseError_no_position _ e Hpos).
  reflexivity.
Qed.


(** C7.  When the cache entry holds a value and no error, the lint function
    calls the structural linter on the view and the cached value, and its
    outcome is exactly the outcome of that call; without a structural linter
    it returns the empty list.  So a structural linter that always returns
    the empty list yields no diagnostic. *)
Theorem cached_value_goes_to_structure_linter (sl : option Linter)
  (view : View) (c : Cache) (v : Value) :
  field_json5ParseCache (view_state view) = Some (Some c) ->
  err c = None ->
  obj c = Some v ->
  (forall f, sl = Some f ->
             json5ParseLinter JSON5_parse sl view = f view v)
  /\ (sl = None ->
      json5ParseLinter JSON5_parse sl view = Normal (Immediate []))
  /\ (forall f,
         sl = Some f ->
         (forall view' x, f view' x = Normal (Immediate [])) ->
         json5ParseLinter JSON5_parse sl view = Normal (Immediate [])).
Proof.
  intros Hfield Herr Hobj.
  rewrite (lint_cached_value sl view c v Hfield Herr Hobj).
  repeat split.
  - intros f ->. reflexivity.
  - intros ->. reflexivity.
  - intros f -> Hquiet. cbn [lintStructure]. apply Hquiet.
Qed.

(** C5, as the code has it.  The update of the parse cache returns normally
    for every previous state and every transaction, an exception of the
    parser ending in the error field of the new state.  The lint function
    returns normally, a parse error ending in one diagnostic, on condition
    that each parse error it has to report can be placed (the error lacks a
    line or a column, or its line is one of the lines of the document) and
    that the structural linter does not throw. *)
Theorem parser_exceptions_are_contained (oldValue : option Cache)
  (tx : Transaction Value SyntaxTree) (sl : option Linter) (view : View) :
  (exists s,
      update (json5ParseCache SyntaxTree JSON5_parse) oldValue tx = Normal s
      /\ forall e,
          docChanged tx = true ->
          JSON5_parse (Text.toString (newDoc tx)) = Throw e ->
          exists c, s = Some c /\ err c = Some e)
  /\ ((forall e, parseErrorSeen JSON5_parse view e ->
                 locatable (doc (view_state view)) e = true) ->
      (forall f v, sl = Some f -> returns (f view v) = true) ->
      exists r,
        json5ParseLinter JSON5_parse sl view = Normal r
        /\ forall e,
            parseErrorSeen JSON5_parse view e ->
            exists pos,
              r = Immediate
                    [Diagnostic.make pos pos (JsError.message e)
                       Diagnostic.error]).
Proof.
  split.
  - destruct (parseCache_update_returns Value SyntaxTree JSON5_parse
                oldValue tx) as (s & Hs).
    exists s. split; [exact Hs|].
    intros e Hdoc Hparse.
    rewrite (parseCache_update_failed Value SyntaxTree JSON5_parse
               oldValue tx e Hdoc Hparse) in Hs.
    injection Hs as <-. eexists. split; reflexivity.
  - intros Hplace Hquiet.
    assert (Hlinter : forall v, exists r, lintStructure sl view v = Normal r).
    { intro v. destruct sl as [f|]; cbn [lintStructure].
      - specialize (Hquiet f v eq_refl).
        destruct (f view v) as [r|e]; [now exists r|discriminate].
      - now eexists. }
    assert (Hret : exists r, json5ParseLinter JSON5_parse sl view = Normal r).
    { destruct (lint_cases sl view) as [(e & Hseen) | [(v & Hv) | (v & Hv)]].
      - rewrite (lint_parse_error sl view e Hseen).
        specialize (Hplace e Hseen).
        rewrite <- handleParseError_returns in Hplace.
        destruct (handleParseError (doc (view_state view)) e) as [ds|e'];
          [|discriminate].
        now eexists.
      - rewrite Hv. apply Hlinter.
      - rewrite Hv. destruct (Hlinter v) as (r & ->). now exists r. }
    destruct Hret as (r & Hr). exists r. split; [exact Hr|].
    intros e Hseen.
    rewrite (lint_parse_error sl view e Hseen) in Hr.
    destruct (handleParseError (doc (view_state view)) e) as [ds|e'] eqn:Hds;
      [|discriminate].
    cbn in Hr. injection Hr as <-.
    destruct (handleParseError_one_diagnostic _ _ _ Hds) as (pos & -> & _).
    now exists pos.
Qed.

End LinterProperties.

(** On the two lines [[1,] and [x]], of length 6, the second starting at
    offset 4.  A cached error at 2:2 gives one diagnostic at offset 5, the
    start of line 2 plus one.  A cached error at 2:9 would be at offset 12
    and is put at 6, the end of the document.  Without a cache the document
    is parsed and the end of input, reported at 2:3, gives offset 6. *)
Lemma parse_error_diagnostic_witness :
  json5ParseLinter sample_parse (Some quietLinter)
    (mkView (sampleState twoLines 0
               (Some (Some (mkCache (Some (eofError 2 2)) None)))))
  = Normal (Immediate [errorAt 5 "JSON5: invalid end of input at 2:2"])
  /\ json5ParseLinter sample_parse (Some quietLinter)
       (mkView (sampleState twoLines 0
                  (Some (Some (mkCache (Some (eofError 2 9)) None)))))
     = Normal (Immediate [errorAt 6 "JSON5: invalid end of input at 2:9"])
  /\ json5ParseLinter unfinishedParse (Some quietLinter)
       (mkView (sampleState twoLines 0 None))
     = Normal (Immediate [errorAt 6 "JSON5: invalid end of input at 2:3"]).
Proof.
  split; [|split].
  - destruct (parse_error_diagnostic Json unit SampleTree sample_parse
                (Some quietLinter)
                (mkView (sampleState twoLines 0
                           (Some (Some (mkCache (Some (eofError 2 2))
                                          None)))))
                (eofError 2 2) 2 2) as (pos & Hlint & Hpos & _).
    + left. eexists. split; reflexivity.
    + reflexivity.
    + reflexivity.
    + vm_compute. split; discriminate.
    + rewrite Hlint, Hpos. reflexivity.
  - destruct (parse_error_diagnostic Json unit SampleTree sample_parse
                (Some quietLinter)
                (mkView (sampleState twoLines 0
                           (Some (Some (mkCache (Some (eofError 2 9))
                                          None)))))
                (eofError 2 9) 2 9) as (pos & Hlint & Hpos & _).
    + left. eexists. split; reflexivity.
    + reflexivity.
    + reflexivity.
    + vm_compute. split; discriminate.
    + rewrite Hlint, Hpos. reflexivity.
  - destruct (parse_error_diagnostic Json unit SampleTree unfinishedParse
                (Some quietLinter) (mkView (sampleState twoLines 0 None))
                (eofError 2 3) 2 3) as (pos & Hlint & Hpos & _).
    + right. split; reflexivity.
    + reflexivity.
    + reflexivity.
    + vm_compute. split; discriminate.
    + rewrite Hlint, Hpos. reflexivity.
Defined.

(** Against C4: the document is one line that holds a newline character and
    there is no cache.  The parser is given [{] and the newline and reports
    the end of input at 2:1; [doc.line(2)] on a document of one line throws
    a [RangeError] in the [catch] handler, and the lint function returns no
    diagnostic. *)
Lemma lint_throws_on_line_past_document :
  Text.lines brokenLine = 1
  /\ unfinishedParse (Text.toString brokenLine) = Throw (eofError 2 1)
  /\ json5ParseLinter unfinishedParse (Some quietLinter)
       (mkView (sampleState brokenLine 0 None))
     = Throw (JsError.make JsError.RangeError
                "Invalid line number 2 in 1-line document" None None)
  /\ ~ (exists r,
          json5ParseLinter unfinishedParse (Some quietLinter)
            (mkView (sampleState brokenLine 0 None))
          = Normal r).
Proof.
  split; [reflexivity|]. split; [reflexivity|]. split.
  - reflexivity.
  - intros (r & H). discriminate H.
Qed.

(** A text the parser rejects with an error that has no position gives one
    diagnostic at offset 0. *)
Lemma error_without_position_at_start_witness :
  json5ParseLinter sample_parse (Some quietLinter) (sampleView "oops" None)
  = Normal (Immediate [errorAt 0 "text outside the examples"]).
Proof.
  exact (error_without_position_at_start Json unit SampleTree sample_parse
           (Some quietLinter) (sampleView "oops" None)
           (JsError.make JsError.OtherError "text outside the examples"
              None None)
           (or_intror (conj eq_refl eq_refl)) eq_refl).
Defined.


(** The cached value of [{}] is handed to a structural linter that finds
    nothing: no diagnostic. *)
Lemma cached_value_goes_to_structure_linter_witness :
  json5ParseLinter sample_parse (Some quietLinter)
    (sampleView "{}" (Some (Some (mkCache None (Some (JObject []))))))
  = Normal (Immediate []).
Proof.
  exact (proj1 (cached_value_goes_to_structure_linter Json unit SampleTree
                  sample_parse (Some quietLinter)
                  (sampleView "{}"
                     (Some (Some (mkCache None (Some (JObject []))))))
                  (mkCache None (Some (JObject []))) (JObject [])
                  eq_refl eq_refl eq_refl)
           quietLinter eq_refl).
Defined.

(** Against C5: the cache holds an error reported on line 2 while the
    document has one line.  [doc.line(2)] throws a [RangeError], which
    nothing catches, and the lint function does not return. *)
Lemma lint_throws_on_line_outside_document :
  json5ParseLinter sample_parse (Some quietLinter)
    (sampleView "{" (Some (Some (mkCache (Some (eofError 2 1)) None))))
  = Throw (JsError.make JsError.RangeError
             "Invalid line number 2 in 1-line document" None None)
  /\ ~ (exists r,
          json5ParseLinter sample_parse (Some quietLinter)
            (sampleView "{"
               (Some (Some (mkCache (Some (eofError 2 1)) None))))
          = Normal r).
Proof.
  split.
  - reflexivity.
  - intros (r & H). discriminate H.
Qed.

(** Editing the empty cache into [{] stores the parser's error, and the
    lint function turns that error into one diagnostic. *)
Lemma parser_exceptions_are_contained_witness :
  (exists s,
      update (json5ParseCache SampleTree sample_parse) None
        (sampleEdit "{" 1) = Normal s)
  /\ (exists r,
         json5ParseLinter sample_parse (Some quietLinter)
           (sampleView "{" (Some (Some (mkCache (Some (eofError 1 2)) None))))
         = Normal r).
Proof.
  pose proof (parser_exceptions_are_contained Json unit SampleTree
                sample_parse None (sampleEdit "{" 1) (Some quietLinter)
                (sampleView "{"
                   (Some (Some (mkCache (Some (eofError 1 2)) None)))))
    as [(s & Hs & _) Hlint].
  split.
  - exists s. exact Hs.
  - destruct Hlint as (r & Hr & _).
    + intros e [(c & Hfield & Herr) | (Hun & _)].
      * injection Hfield as <-. injection Herr as <-. reflexivity.
      * discriminate Hun.
    + intros f v Hf. injection Hf as <-. reflexivity.
    + exists r. exact Hr.
Defined.

(** ** The cursor path *)

Section CursorPathProperties.

Variables Value SyntaxTree SyntaxNode : Type.
Variable nodeAtCursor : EditorState Value SyntaxTree -> Z -> option SyntaxNode.
Variable getPathAtNode :
  EditorState Value SyntaxTree -> SyntaxNode -> option (list Segment).

Local Abbreviation Tx := (Transaction Value SyntaxTree).
Local Abbreviation CursorPath := (JsonCursorPath SyntaxNode).

(** The node and the path found in state [s] at the end of its main
    selection range. *)
Lemma cursorPath_update_eq (oldValue : CursorPath) (tx : Tx) :
  update (jsonCursorPath nodeAtCursor getPathAtNode) oldValue tx
  = Normal
      (mkCursorPath
         match nodeAtCursor (state tx) (selection_main_to (state tx)) with
         | Some n => getPathAtNode (state tx) n
         | None => None
         end
         (nodeAtCursor (state tx) (selection_main_to (state tx)))).
Proof. reflexivity. Qed.

Lemma cursorPath_update_inv (oldValue s : CursorPath) (tx : Tx) :
  update (jsonCursorPath nodeAtCursor getPathAtNode) oldValue tx = Normal s ->
  node s = None -> path s = None.
Proof.
  rewrite cursorPath_update_eq. intro H. injection H as <-.
  cbn [node path]. intros ->. reflexivity.
Qed.

(** C8.  On every transaction the cursor path is computed anew from the
    state the transaction leads to and the end of its main selection range:
    the node is the one [nodeAtCursor] finds there and the path is the one
    [getPathAtNode] gives for it.  Neither the previous value of the field
    nor whether the transaction changed the document has any part in the
    result. *)
Theorem cursor_path_recomputed_on_every_transaction
  (oldValue otherValue : CursorPath) (tx : Tx) :
  update (jsonCursorPath nodeAtCursor getPathAtNode) oldValue tx
  = Normal
      (mkCursorPath
         match nodeAtCursor (state tx) (selection_main_to (state tx)) with
         | Some n => getPathAtNode (state tx) n
         | None => None
         end
         (nodeAtCursor (state tx) (selection_main_to (state tx))))
  /\ update (jsonCursorPath nodeAtCursor getPathAtNode) otherValue tx
     = update (jsonCursorPath nodeAtCursor getPathAtNode) oldValue tx
  /\ forall (changed : bool) (text : Text.t),
       update (jsonCursorPath nodeAtCursor getPathAtNode) otherValue
         (mkTransaction changed text (state tx))
       = update (jsonCursorPath nodeAtCursor getPathAtNode) oldValue tx.
Proof.
  split; [apply cursorPath_update_eq|].
  split.
  - rewrite !cursorPath_update_eq. reflexivity.
  - intros changed text. rewrite !cursorPath_update_eq. reflexivity.
Qed.

(** C10.  In every value the cursor path field can hold, and in every value
    its update returns, a null node comes with a null path: a path that is
    not null has a node that is not null. *)
Theorem path_only_with_node (s : CursorPath) :
  reachable (jsonCursorPath nodeAtCursor getPathAtNode) s
  \/ (exists oldValue tx,
         update (jsonCursorPath nodeAtCursor getPathAtNode) oldValue tx
         = Normal s) ->
  (node s = None -> path s = None)
  /\ (path s <> None -> node s <> None).
Proof.
  intro Hs.
  assert (Hinv : node s = None -> path s = None).
  { destruct Hs as [Hreach | (oldValue & tx & Hupd)].
    - destruct Hreach as [|s0 s1 tx _ Hupd].
      + reflexivity.
      + now apply cursorPath_update_inv with s0 tx.
    - now apply cursorPath_update_inv with oldValue tx. }
  split; [exact Hinv|].
  intros Hpath Hnode. apply Hpath, Hinv, Hnode.
Qed.

End CursorPathProperties.

(** In [[10,20,30]] with the cursor in [20], the field holds the second
    element and the path [[1]]; with the cursor before the array it holds
    neither node nor path. *)
Lemma path_only_with_node_witness :
  node (mkCursorPath (Some [Index 1]) (Some 1)) <> None
  /\ path (mkCursorPath None (@None Z)) = None.
Proof.
  split.
  - refine (proj2 (path_only_with_node Json SampleTree Z sample_nodeAtCursor
                     sample_getPathAtNode
                     (mkCursorPath (Some [Index 1]) (Some 1)) _) _).
    + left.
      apply reachable_update
        with (s := create (jsonCursorPath sample_nodeAtCursor
                             sample_getPathAtNode))
             (tx := sampleEdit "[10,20,30]" 5).
      * apply reachable_create.
      * reflexivity.
    + discriminate.
  - refine (proj1 (path_only_with_node Json SampleTree Z sample_nodeAtCursor
                     sample_getPathAtNode (mkCursorPath None None) _) _).
    + right.
      exists (mkCursorPath (Some [Index 1]) (Some 1)).
      exists (sampleMove "[10,20,30]" 0).
      reflexivity.
    + reflexivity.
Defined.

(** ** Where the diagnostic of a parse error lands *)

Lemma span_zero (ls : list string) : Text.span ls = 0 -> ls = [].
Proof.
  destruct ls as [|l ls]; [reflexivity|].
  cbn [Text.span]. pose proof (span_nonneg ls). unfold Text.len. lia.
Qed.

Lemma span_split (ls : list string) (k : nat) :
  (k < List.length ls)%nat ->
  Text.span ls
  = Text.span (firstn k ls) + (Text.len (nth k ls EmptyString) + 1)
    + Text.span (skipn (S k) ls).
Proof.
  revert k.
  induction ls as [|l ls IH]; intros k Hk.
  - simpl in Hk. lia.
  - destruct k as [|k].
    + cbn [firstn nth skipn Text.span]. lia.
    + cbn [firstn nth Text.span]. simpl in Hk.
      rewrite (IH k ltac:(lia)).
      change (skipn (S (S k)) (l :: ls)) with (skipn (S k) ls). lia.
Qed.

Lemma lineStart_next (d : Text.t) (n : Z) :
  1 <= n < Text.lines d ->
  Text.lineStart d (n + 1)
  = Text.lineStart d n
    + Text.len (nth (Z.to_nat (n - 1)) (Text.toLines d) EmptyString) + 1.
Proof.
  intros [Hlo Hhi]. unfold Text.lineStart, Text.lines in *.
  replace (Z.to_nat (n + 1 - 1)) with (S (Z.to_nat (n - 1))) by lia.
  set (k := Z.to_nat (n - 1)).
  assert (Hk : (k < List.length (Text.toLines d))%nat) by (unfold k; lia).
  generalize (Text.toLines d) k Hk. clear.
  intros ls. induction ls as [|l ls IH]; intros k Hk.
  - simpl in Hk. lia.
  - destruct k as [|k].
    + cbn [firstn nth Text.span]. lia.
    + change (firstn (S (S k)) (l :: ls)) with (l :: firstn (S k) ls).
      change (firstn (S k) (l :: ls)) with (l :: firstn k ls).
      cbn [nth Text.span]. simpl in Hk.
      rewrite (IH k ltac:(lia)). lia.
Qed.

(** Only the last line ends where the document ends; every other line has
    at least its line break after it. *)
Lemma line_to_length (d : Text.t) (n : Z) (l : Line.t) :
  Text.line d n = Normal l ->
  (n = Text.lines d -> Line.to l = Text.length d)
  /\ (n < Text.lines d -> Line.to l < Text.length d)
  /\ Line.from l = Text.lineStart d n
  /\ Line.to l = Line.from l + Text.len (Line.text l)
  /\ 1 <= n <= Text.lines d.
Proof.
  unfold Text.line.
  destruct ((n <? 1) || (n >? Text.lines d)) eqn:Hrange; [discriminate|].
  intro H. injection H as <-. cbn [Line.from Line.to Line.text].
  apply orb_false_iff in Hrange. destruct Hrange as [Hlo Hhi].
  apply Z.ltb_ge in Hlo.
  rewrite Z.gtb_ltb in Hhi. apply Z.ltb_ge in Hhi.
  unfold Text.lines in *. unfold Text.lineStart, Text.length.
  remember (Z.to_nat (n - 1)) as k eqn:Hkdef.
  assert (Hk : (k < List.length (Text.toLines d))%nat) by lia.
  pose proof (span_split (Text.toLines d) k Hk) as Hsplit.
  pose proof (span_nonneg (skipn (S k) (Text.toLines d))) as Hrest.
  pose proof (length_skipn (S k) (Text.toLines d)) as Hskip.
  cbn [nth Text.toLines] in *.
  repeat split; try lia.
  - intro Hlast.
    assert (Hnil : skipn (S k) (Text.toLines d) = []).
    { apply List.length_zero_iff_nil. rewrite Hskip. lia. }
    rewrite Hnil in Hsplit. cbn [Text.span] in Hsplit. lia.
  - intro Hbefore.
    assert (Hpos : Text.span (skipn (S k) (Text.toLines d)) <> 0).
    { intro H0. apply span_zero in H0.
      apply (f_equal (@List.length string)) in H0.
      rewrite Hskip in H0.
      change (List.length (@nil string)) with 0%nat in H0. lia. }
    lia.
Qed.

(** X1.  A parse error reported on a line of the document, at a column from 1
    on, or at column 0 of a line after the first, gives a diagnostic inside
    the document. *)
Theorem diagnostic_within_document (doc : Text.t) (e : JsError.t)
  (ln cn : Z) :
  JsError.lineNumber e = Some ln ->
  JsError.columnNumber e = Some cn ->
  1 <= ln <= Text.lines doc ->
  1 <= cn \/ (0 <= cn /\ 2 <= ln) ->
  exists pos,
    handleParseError doc e = Normal [errorAt pos (JsError.message e)]
    /\ 0 <= pos <= Text.length doc.
Proof.
  intros Hl Hc Hrange Hcol.
  rewrite (handleParseError_in_range doc e ln cn Hl Hc Hrange).
  eexists. split; [reflexivity|].
  destruct (line_in_range doc ln Hrange) as (l & Hline & Hfrom).
  destruct (line_within_document doc ln l Hline) as [[H0 Hft] Hto].
  rewrite Hfrom in H0.
  assert (Hstart : 2 <= ln -> 1 <= Text.lineStart doc ln).
  { intro H2. replace ln with ((ln - 1) + 1) by lia.
    rewrite lineStart_next by lia.
    assert (0 <= Text.lineStart doc (ln - 1)).
    { unfold Text.lineStart. apply span_nonneg. }
    unfold Text.len. lia. }
  lia.
Qed.

Lemma line_fields (d : Text.t) (n : Z) (l : Line.t) :
  Text.line d n = Normal l ->
  Line.text l = nth (Z.to_nat (n - 1)) (Text.toLines d) EmptyString
  /\ 0 <= Text.len (Line.text l).
Proof.
  unfold Text.line.
  destruct ((n <? 1) || (n >? Text.lines d)); [discriminate|].
  intro H. injection H as <-. split; [reflexivity|].
  unfold Text.len. lia.
Qed.

(** X2.  The diagnostic of a parse error lies on the line the error reports
    exactly when the column is at least 1 and at most one past the length of
    the line, or the line is the last one: a greater column on an earlier
    line puts the diagnostic on a later line. *)
Theorem diagnostic_on_reported_line (doc : Text.t) (e : JsError.t)
  (ln cn : Z) (l : Line.t) :
  JsError.lineNumber e = Some ln ->
  JsError.columnNumber e = Some cn ->
  Text.line doc ln = Normal l ->
  exists pos,
    handleParseError doc e = Normal [errorAt pos (JsError.message e)]
    /\ (Line.from l <= pos <= Line.to l
        <-> 1 <= cn
            /\ (cn <= Text.len (Line.text l) + 1 \/ ln = Text.lines doc)).
Proof.
  intros Hl Hc Hline.
  destruct (line_to_length doc ln l Hline)
    as (Hlast & Hbefore & Hfrom & Hto & Hrange).
  destruct (line_fields doc ln l Hline) as [_ Hlen].
  rewrite (handleParseError_in_range doc e ln cn Hl Hc Hrange).
  eexists. split; [reflexivity|].
  rewrite <- Hfrom.
  destruct (Z.eq_dec ln (Text.lines doc)) as [Heq | Hne].
  - specialize (Hlast Heq). lia.
  - assert (Hlt : ln < Text.lines doc) by lia.
    specialize (Hbefore Hlt). lia.
Qed.

(** X3.  An error reported at column 0 of a line after the first gives a
    diagnostic at the end of the line before, where its line break is. *)
Theorem column_zero_is_end_of_previous_line (doc : Text.t) (e : JsError.t)
  (ln : Z) (previous : Line.t) :
  JsError.lineNumber e = Some ln ->
  JsError.columnNumber e = Some 0 ->
  ln <= Text.lines doc ->
  Text.line doc (ln - 1) = Normal previous ->
  handleParseError doc e
  = Normal [errorAt (Line.to previous) (JsError.message e)].
Proof.
  intros Hl Hc Hhi Hline.
  destruct (line_to_length doc (ln - 1) previous Hline)
    as (_ & Hbefore & Hfrom & Hto & Hrange).
  destruct (line_fields doc (ln - 1) previous Hline) as [Htext _].
  rewrite (handleParseError_in_range doc e ln 0 Hl Hc) by lia.
  pose proof (lineStart_next doc (ln - 1) ltac:(lia)) as Hnext.
  replace (ln - 1 + 1) with ln in Hnext by lia.
  rewrite <- Htext, <- Hfrom in Hnext.
  specialize (Hbefore ltac:(lia)).
  replace (Z.min (Text.lineStart doc ln + 0 - 1) (Text.length doc))
    with (Line.to previous) by lia.
  reflexivity.
Qed.

(** *** From an offset to a line and a column, and back *)

Lemma append_empty (s : string) : (s ++ "")%string = s.
Proof.
  induction s as [|c s IH]; [reflexivity|].
  cbn [append]. now rewrite IH.
Qed.

Lemma lineColumn_within (l t : string) (i : nat) (line column : Z) :
  singleLine l = true ->
  (i <= String.length l)%nat ->
  lineColumn (l ++ t) i line column = (line, column + Z.of_nat i).
Proof.
  revert i column.
  induction l as [|c l IH]; intros i column Hsingle Hi.
  - simpl in Hi. replace i with 0%nat by lia.
    destruct t; cbn [append lineColumn]; f_equal; lia.
  - destruct i as [|i].
    + cbn [append lineColumn]. f_equal. lia.
    + cbn [singleLine] in Hsingle.
      apply andb_true_iff in Hsingle. destruct Hsingle as [Hc Hl].
      apply negb_true_iff in Hc.
      cbn [append lineColumn]. rewrite Hc.
      simpl in Hi. rewrite IH by (assumption || lia).
      f_equal. lia.
Qed.

Lemma lineColumn_across (l t : string) (p : nat) (line column : Z) :
  singleLine l = true ->
  lineColumn (l ++ Text.newline ++ t) (String.length l + 1 + p) line column
  = lineColumn t p (line + 1) 1.
Proof.
  revert column.
  induction l as [|c l IH]; intros column Hsingle.
  - reflexivity.
  - cbn [singleLine] in Hsingle.
    apply andb_true_iff in Hsingle. destruct Hsingle as [Hc Hl].
    apply negb_true_iff in Hc.
    cbn [append String.length Nat.add lineColumn]. rewrite Hc.
    apply IH. exact Hl.
Qed.

Lemma lineColumn_concat (ls : list string) :
  forall (l : string) (p : nat) (line column : Z),
    forallb singleLine (l :: ls) = true ->
    Z.of_nat p <= Text.span (l :: ls) - 1 ->
    exists (k : nat) (i : Z),
      (k < List.length (l :: ls))%nat
      /\ lineColumn (String.concat Text.newline (l :: ls)) p line column
         = (line + Z.of_nat k, (if Nat.eqb k 0 then column else 1) + i)
      /\ Text.span (firstn k (l :: ls)) + i = Z.of_nat p
      /\ 0 <= i.
Proof.
  induction ls as [|l' ls IH]; intros l p line column Hsingle Hp.
  - cbn [forallb] in Hsingle. rewrite andb_true_r in Hsingle.
    cbn [Text.span] in Hp. unfold Text.len in Hp.
    exists 0%nat, (Z.of_nat p).
    cbn [String.concat firstn Text.span Nat.eqb List.length].
    rewrite <- (append_empty l) at 1.
    rewrite lineColumn_within by (assumption || lia).
    repeat split; try lia. f_equal. lia.
  - change (String.concat Text.newline (l :: l' :: ls))
      with (l ++ Text.newline ++ String.concat Text.newline (l' :: ls)).
    change (forallb singleLine (l :: l' :: ls))
      with (singleLine l && forallb singleLine (l' :: ls)) in Hsingle.
    apply andb_true_iff in Hsingle. destruct Hsingle as [Hl Hrest].
    destruct (le_gt_dec p (String.length l)) as [Hin | Hout].
    + exists 0%nat, (Z.of_nat p).
      rewrite lineColumn_within by assumption.
      cbn [firstn Text.span Nat.eqb List.length].
      repeat split; try lia. f_equal. lia.
    + replace p with (String.length l + 1 + (p - String.length l - 1))%nat
        by lia.
      rewrite lineColumn_across by assumption.
      set (p' := (p - String.length l - 1)%nat).
      destruct (IH l' p' (line + 1) 1 Hrest) as (k & i & Hk & Heq & Hsum & Hi).
      { change (Text.span (l :: l' :: ls))
          with (Text.len l + 1 + Text.span (l' :: ls)) in Hp.
        unfold Text.len in Hp. unfold p'. lia. }
      exists (S k), i.
      rewrite Heq.
      change (firstn (S k) (l :: l' :: ls)) with (l :: firstn k (l' :: ls)).
      cbn [Nat.eqb Text.span].
      change (List.length (l :: l' :: ls)) with (S (List.length (l' :: ls))).
      unfold Text.len.
      repeat split; try lia.
      f_equal; [lia|]. destruct (Nat.eqb k 0); reflexivity.
Qed.

(** X4.  When no line of the document holds a newline character, the error a
    parser reports at the line and column of an offset of the text of the
    document gets its diagnostic at that offset. *)
Theorem diagnostic_at_reported_offset (doc : Text.t) (msg : string) (p : Z) :
  forallb singleLine (Text.toLines doc) = true ->
  0 <= p <= Text.length doc ->
  handleParseError doc (errorOn msg (positionOf (Text.toString doc) p))
  = Normal [errorAt p msg].
Proof.
  intros Hsingle Hp.
  unfold positionOf, Text.toString, Text.length, Text.toLines in *.
  destruct (lineColumn_concat (Text.rest doc) (Text.first doc) (Z.to_nat p)
              1 1 Hsingle ltac:(lia)) as (k & i & Hk & Heq & Hsum & Hi).
  rewrite Heq.
  rewrite (handleParseError_in_range doc
             (errorOn msg
                (1 + Z.of_nat k, (if Nat.eqb k 0 then 1 else 1) + i))
             (1 + Z.of_nat k)
             ((if Nat.eqb k 0 then 1 else 1) + i) eq_refl eq_refl).
  - cbn [JsError.message errorOn].
    unfold Text.lineStart, Text.length, Text.toLines.
    replace (Z.to_nat (1 + Z.of_nat k - 1)) with k by lia.
    replace (Z.min _ _) with p; [reflexivity|].
    destruct (Nat.eqb k 0); lia.
  - unfold Text.lines, Text.toLines. lia.
Qed.

(** A text of two lines, [[1,] and [x]], and the offsets of its second
    line. *)
Lemma diagnostic_within_document_witness :
  exists pos,
    handleParseError (Text.make "[1," ["x]"]) (errorOn "unexpected x" (2, 1))
    = Normal [errorAt pos "unexpected x"]
    /\ 0 <= pos <= Text.length (Text.make "[1," ["x]"]).
Proof.
  apply (diagnostic_within_document (Text.make "[1," ["x]"])
           (errorOn "unexpected x" (2, 1)) 2 1).
  - reflexivity.
  - reflexivity.
  - vm_compute. split; discriminate.
  - left. vm_compute. discriminate.
Defined.

Lemma diagnostic_on_reported_line_witness :
  exists pos,
    handleParseError (Text.make "[1," ["x]"]) (errorOn "unexpected x" (1, 6))
    = Normal [errorAt pos "unexpected x"]
    /\ (0 <= pos <= 3 <-> 1 <= 6 /\ (6 <= 3 + 1 \/ 1 = 2)).
Proof.
  exact (diagnostic_on_reported_line (Text.make "[1," ["x]"])
           (errorOn "unexpected x" (1, 6)) 1 6 (Line.make 0 3 1 "[1,")
           eq_refl eq_refl eq_refl).
Defined.

(** A string left open at the end of the first line: the parser reports the
    newline at 2:0, and the diagnostic is at offset 3, the end of line 1. *)
Lemma column_zero_is_end_of_previous_line_witness :
  handleParseError (Text.make "'ab" ["c'"]) (errorOn "invalid character" (2, 0))
  = Normal [errorAt 3 "invalid character"].
Proof.
  exact (column_zero_is_end_of_previous_line (Text.make "'ab" ["c'"])
           (errorOn "invalid character" (2, 0)) 2 (Line.make 0 3 1 "'ab")
           eq_refl eq_refl ltac:(vm_compute; discriminate) eq_refl).
Defined.

(** Offset 5 of the two lines [[1,] and [x]] is line 2, column 2, and the
    error reported there is shown at offset 5. *)
Lemma diagnostic_at_reported_offset_witness :
  positionOf (Text.toString (Text.make "[1," ["x]"])) 5 = (2, 2)
  /\ handleParseError (Text.make "[1," ["x]"]) (errorOn "unexpected ]" (2, 2))
     = Normal [errorAt 5 "unexpected ]"].
Proof.
  split; [reflexivity|].
  exact (diagnostic_at_reported_offset (Text.make "[1," ["x]"])
           "unexpected ]" 5 eq_refl
           ltac:(vm_compute; split; discriminate)).
Defined.

(** ** The parse cache over a run of transactions *)

Lemma runField_app {S T : Type} (f : StateField S T) (s : S)
  (txs1 txs2 : list T) :
  runField f s (txs1 ++ txs2)
  = (s' <- runField f s txs1 ;; runField f s' txs2).
Proof.
  revert s.
  induction txs1 as [|tx txs1 IH]; intro s; cbn [app runField bind].
  - reflexivity.
  - destruct (update f s tx) as [s1|e]; cbn [bind]; [apply IH|reflexivity].
Qed.

Section ParseCacheRuns.

Variables Value SyntaxTree : Type.
Variable JSON5_parse : string -> Completion Value.

Local Abbreviation Cache := (Json5ParseCache Value).
Local Abbreviation Tx := (Transaction Value SyntaxTree).

Lemma lastValue_cons (tx : Tx) (txs : list Tx) (v0 : option Value) :
  lastValue JSON5_parse (tx :: txs) v0
  = lastValue JSON5_parse txs
      match parsedValue JSON5_parse tx with
      | v :: _ => Some v
      | [] => v0
      end.
Proof.
  unfold lastValue. cbn [flat_map]. rewrite rev_app_distr.
  destruct (rev (flat_map (parsedValue JSON5_parse) txs)) as [|v' r].
  - cbn [app]. unfold parsedValue.
    destruct (docChanged tx); [|reflexivity].
    destruct (JSON5_parse (Text.toString (newDoc tx))); reflexivity.
  - reflexivity.
Qed.

Lemma lastError_cons (tx : Tx) (txs : list Tx) (e0 : option JsError.t) :
  lastError JSON5_parse (tx :: txs) e0
  = lastError JSON5_parse txs
      (if docChanged tx then
         match JSON5_parse (Text.toString (newDoc tx)) with
         | Normal _ => None
         | Throw e => Some e
         end
       else e0).
Proof.
  unfold lastError. cbn [filter].
  destruct (docChanged tx); [|reflexivity].
  cbn [rev].
  destruct (rev (filter (@docChanged Value SyntaxTree) txs)); reflexivity.
Qed.

Lemma last_without_change (txs : list Tx) (e0 : option JsError.t)
  (v0 : option Value) :
  existsb (@docChanged Value SyntaxTree) txs = false ->
  lastError JSON5_parse txs e0 = e0 /\ lastValue JSON5_parse txs v0 = v0.
Proof.
  induction txs as [|tx txs IH]; intro Hnone.
  - split; reflexivity.
  - cbn [existsb] in Hnone. apply orb_false_iff in Hnone.
    destruct Hnone as [Htx Htxs].
    rewrite lastError_cons, lastValue_cons.
    unfold parsedValue. rewrite Htx. now apply IH.
Qed.

(** X5.  After a run of transactions of which at least one changes the document,
    the cache holds the error of parsing the document of the last of those
    (none if it parsed) and the value of the last document that parsed, or
    the value the cache had before the run if none did.  A run without a
    change of the document leaves the cache as it was. *)
Theorem cache_after_run (s : option Cache) (txs : list Tx) :
  runField (json5ParseCache SyntaxTree JSON5_parse) s txs
  = Normal
      (if existsb (@docChanged Value SyntaxTree) txs then
         Some (mkCache (lastError JSON5_parse txs (old_err s))
                 (lastValue JSON5_parse txs (old_obj s)))
       else s).
Proof.
  revert s.
  induction txs as [|tx txs IH]; intro s.
  - reflexivity.
  - cbn [runField existsb].
    rewrite lastError_cons, lastValue_cons. unfold parsedValue.
    destruct (docChanged tx) eqn:Hdoc.
    + cbn [orb].
      assert (Hstep : forall s1,
                 update (json5ParseCache SyntaxTree JSON5_parse) s tx
                 = Normal (Some s1) ->
                 (s' <- update (json5ParseCache SyntaxTree JSON5_parse) s tx ;;
                  runField (json5ParseCache SyntaxTree JSON5_parse) s' txs)
                 = Normal
                     (Some (mkCache (lastError JSON5_parse txs (err s1))
                              (lastValue JSON5_parse txs (obj s1))))).
      { intros s1 Hupd. rewrite Hupd. cbn [bind]. rewrite IH.
        destruct (existsb (@docChanged Value SyntaxTree) txs) eqn:Hany.
        - reflexivity.
        - destruct (last_without_change txs (err s1) (obj s1) Hany)
            as [-> ->].
          destruct s1; reflexivity. }
      destruct (JSON5_parse (Text.toString (newDoc tx))) as [v|e] eqn:Hparse.
      * rewrite (Hstep (mkCache None (Some v))); [reflexivity|].
        now apply parseCache_update_parsed.
      * rewrite (Hstep (mkCache (Some e) (old_obj s))); [reflexivity|].
        now apply parseCache_update_failed.
    + rewrite (parseCache_update_unchanged Value SyntaxTree JSON5_parse
                 s tx Hdoc).
      cbn [bind orb]. apply IH.
Qed.

(** X6.  The transactions that do not change the document can be left out of a
    run: the cache ends the same. *)
Theorem run_skips_unchanged_documents (s : option Cache) (txs : list Tx) :
  runField (json5ParseCache SyntaxTree JSON5_parse) s txs
  = runField (json5ParseCache SyntaxTree JSON5_parse) s
      (filter (@docChanged Value SyntaxTree) txs).
Proof.
  revert s.
  induction txs as [|tx txs IH]; intro s; [reflexivity|].
  cbn [filter]. destruct (docChanged tx) eqn:Hdoc.
  - cbn [runField].
    destruct (update (json5ParseCache SyntaxTree JSON5_parse) s tx);
      cbn [bind]; [apply IH|reflexivity].
  - cbn [runField].
    rewrite (parseCache_update_unchanged Value SyntaxTree JSON5_parse
               s tx Hdoc).
    cbn [bind]. apply IH.
Qed.

Lemma reachable_entry_filled (s : option Cache) :
  reachable (json5ParseCache SyntaxTree JSON5_parse) s ->
  forall c, s = Some c -> err c = None -> exists v, obj c = Some v.
Proof.
  intro Hreach.
  induction Hreach as [|s s' tx Hreach IH Hupd]; intros c Hc Herr.
  - discriminate Hc.
  - subst s'. destruct (docChanged tx) eqn:Hdoc.
    + destruct (JSON5_parse (Text.toString (newDoc tx))) as [v|e] eqn:Hparse.
      * rewrite (parseCache_update_parsed Value SyntaxTree JSON5_parse
                   s tx v Hdoc Hparse) in Hupd.
        injection Hupd as <-. now exists v.
      * rewrite (parseCache_update_failed Value SyntaxTree JSON5_parse
                   s tx e Hdoc Hparse) in Hupd.
        injection Hupd as <-. discriminate Herr.
    + rewrite (parseCache_update_unchanged Value SyntaxTree JSON5_parse
                 s tx Hdoc) in Hupd.
      injection Hupd as ->. now apply IH.
Qed.

(** X7.  A cache entry the field can hold has an error or a value: the
    entry without either, on which the lint function would parse again,
    does not arise. *)
Theorem cache_entry_has_error_or_value (s : option Cache) (c : Cache) :
  reachable (json5ParseCache SyntaxTree JSON5_parse) s ->
  s = Some c ->
  err c <> None \/ obj c <> None.
Proof.
  intros Hreach Hc.
  destruct (err c) as [e|] eqn:Herr.
  - left. discriminate.
  - right. destruct (reachable_entry_filled s Hreach c Hc Herr) as (v & ->).
    discriminate.
Qed.

End ParseCacheRuns.

(** ** The lint function on top of the parse cache *)

Section LinterOnCache.

Variables Value Promise SyntaxTree : Type.
Variable JSON5_parse : string -> Completion Value.

Local Abbreviation View := (EditorView Value SyntaxTree).
Local Abbreviation Cache := (Json5ParseCache Value).
Local Abbreviation Tx := (Transaction Value SyntaxTree).
Local Abbreviation Linter := (StructureLinter Value Promise SyntaxTree).

Lemma lint_no_entry (sl : option Linter) (view : View)
  (field : option (option Cache)) :
  field = None \/ field = Some None ->
  json5ParseLinter JSON5_parse sl (withField view field)
  = freshLint JSON5_parse sl (withField view field).
Proof.
  intro Hfield. apply lint_uncached.
  unfold uncached. destruct Hfield as [-> | ->]; reflexivity.
Qed.

(** X8.  With a cache entry that the field can hold, the lint function does not
    call the parser: its outcome is the same whatever the parser. *)
Theorem lint_on_cache_entry_never_parses (sl : option Linter) (view : View)
  (c : Cache) (other_parse : string -> Completion Value) :
  reachable (json5ParseCache SyntaxTree JSON5_parse) (Some c) ->
  field_json5ParseCache (view_state view) = Some (Some c) ->
  json5ParseLinter other_parse sl view
  = json5ParseLinter JSON5_parse sl view.
Proof.
  intros Hreach Hfield.
  destruct (err c) as [e|] eqn:He.
  - rewrite (lint_cached_error Value Promise SyntaxTree other_parse
               sl view c e Hfield He).
    rewrite (lint_cached_error Value Promise SyntaxTree JSON5_parse
               sl view c e Hfield He).
    reflexivity.
  - destruct (reachable_entry_filled Value SyntaxTree JSON5_parse
                (Some c) Hreach c eq_refl He) as (v & Hv).
    rewrite (lint_cached_value Value Promise SyntaxTree other_parse
               sl view c v Hfield He Hv).
    rewrite (lint_cached_value Value Promise SyntaxTree JSON5_parse
               sl view c v Hfield He Hv).
    reflexivity.
Qed.

(** X9.  After a transaction that changed the document, linting with the cache
    the update produced gives what linting the same document without a
    cache gives, when the document does not parse or there is no structural
    linter. *)
Theorem updated_cache_agrees_with_no_cache (sl : option Linter)
  (view : View) (oldValue newValue : option Cache) (tx : Tx)
  (field : option (option Cache)) :
  docChanged tx = true ->
  doc (view_state view) = newDoc tx ->
  update (json5ParseCache SyntaxTree JSON5_parse) oldValue tx
  = Normal newValue ->
  sl = None \/ returns (JSON5_parse (Text.toString (newDoc tx))) = false ->
  field = None \/ field = Some None ->
  json5ParseLinter JSON5_parse sl (withField view (Some newValue))
  = json5ParseLinter JSON5_parse sl (withField view field).
Proof.
  intros Hdoc Hview Hupd Hcase Hfield.
  rewrite (lint_no_entry sl view field Hfield).
  destruct (JSON5_parse (Text.toString (newDoc tx))) as [v|e] eqn:Hparse.
  - destruct Hcase as [-> | Hfails]; [|discriminate Hfails].
    rewrite (parseCache_update_parsed Value SyntaxTree JSON5_parse
               oldValue tx v Hdoc Hparse) in Hupd.
    injection Hupd as <-.
    rewrite (freshLint_parsed Value Promise SyntaxTree JSON5_parse
               None (withField view field) v)
      by (cbn [withField view_state doc]; rewrite Hview; exact Hparse).
    reflexivity.
  - rewrite (parseCache_update_failed Value SyntaxTree JSON5_parse
               oldValue tx e Hdoc Hparse) in Hupd.
    injection Hupd as <-.
    rewrite (freshLint_parse_error Value Promise SyntaxTree JSON5_parse
               sl (withField view field) e)
      by (cbn [withField view_state doc]; rewrite Hview; exact Hparse).
    reflexivity.
Qed.

(** X10.  While the cache entry holds an error, the outcome of the lint function
    depends on the document and on that error only: not on the structural
    linter, which is not called, not on the value kept in the entry, and
    not on the parser. *)
Theorem cached_error_decides_lint (sl sl' : option Linter) (view : View)
  (c : Cache) (e : JsError.t) (o : option Value)
  (other_parse : string -> Completion Value) :
  field_json5ParseCache (view_state view) = Some (Some c) ->
  err c = Some e ->
  json5ParseLinter other_parse sl'
    (withField view (Some (Some (mkCache (Some e) o))))
  = json5ParseLinter JSON5_parse sl view.
Proof.
  intros Hfield Herr.
  rewrite (lint_cached_error Value Promise SyntaxTree JSON5_parse
             sl view c e Hfield Herr).
  exact (lint_cached_error Value Promise SyntaxTree other_parse sl'
           (withField view (Some (Some (mkCache (Some e) o))))
           (mkCache (Some e) o) e eq_refl eq_refl).
Qed.

(** X11.  A structural linter that throws an error without a position is handled
    in two ways.  With the parsed value in the cache the error leaves the
    lint function.  Without a cache entry, where the linter is called
    inside the [try] block, the error is caught and reported as a parse
    error: one diagnostic at offset 0 with the message of the error. *)
Theorem linter_exception_depends_on_cache (f : Linter) (view : View)
  (v : Value) (e : JsError.t) (field : option (option Cache)) :
  (forall view', f view' v = Throw e) ->
  JsError.has_position e = false ->
  JSON5_parse (Text.toString (doc (view_state view))) = Normal v ->
  field = None \/ field = Some None ->
  json5ParseLinter JSON5_parse (Some f)
    (withField view (Some (Some (mkCache None (Some v)))))
  = Throw e
  /\ json5ParseLinter JSON5_parse (Some f) (withField view field)
     = Normal (Immediate [errorAt 0 (JsError.message e)]).
Proof.
  intros Hf Hpos Hparse Hfield. split.
  - exact (lint_cached_linter_throws Value Promise SyntaxTree JSON5_parse f
             (withField view (Some (Some (mkCache None (Some v)))))
             (mkCache None (Some v)) v e eq_refl eq_refl eq_refl (Hf _)).
  - rewrite (lint_no_entry (Some f) view field Hfield).
    rewrite (freshLint_linter_throws Value Promise SyntaxTree JSON5_parse f
               (withField view field) v e Hparse (Hf _)).
    rewrite (handleParseError_no_position _ e Hpos). reflexivity.
Qed.

End LinterOnCache.

(** ** The cursor path over a run of transactions *)

Section CursorPathRuns.

Variables Value SyntaxTree SyntaxNode : Type.
Variable nodeAtCursor : EditorState Value SyntaxTree -> Z -> option SyntaxNode.
Variable getPathAtNode :
  EditorState Value SyntaxTree -> SyntaxNode -> option (list Segment).

Local Abbreviation Tx := (Transaction Value SyntaxTree).
Local Abbreviation CursorPath := (JsonCursorPath SyntaxNode).

Lemma cursorPath_run_returns (s : CursorPath) (txs : list Tx) :
  exists s',
    runField (jsonCursorPath nodeAtCursor getPathAtNode) s txs = Normal s'.
Proof.
  revert s.
  induction txs as [|tx txs IH]; intro s.
  - now exists s.
  - cbn [runField]. rewrite cursorPath_update_eq. cbn [bind]. apply IH.
Qed.

(** X12.  After a run of transactions the cursor path is the one of the last
    transaction alone: the transactions before it and the value the field
    started from leave no trace. *)
Theorem cursor_path_after_run (s s0 : CursorPath) (txs : list Tx) (tx : Tx) :
  runField (jsonCursorPath nodeAtCursor getPathAtNode) s (txs ++ [tx])
  = update (jsonCursorPath nodeAtCursor getPathAtNode) s0 tx.
Proof.
  rewrite runField_app.
  destruct (cursorPath_run_returns s txs) as (s' & ->).
  cbn [bind runField].
  rewrite (cursorPath_update_eq _ _ _ _ _ s' tx).
  rewrite (cursorPath_update_eq _ _ _ _ _ s0 tx).
  reflexivity.
Qed.

End CursorPathRuns.

(** ** Examples of the lint function on top of the parse cache *)

Lemma sample_error_entry_reachable :
  reachable (json5ParseCache SampleTree sample_parse)
    (Some (mkCache (Some (eofError 1 2)) None)).
Proof.
  apply reachable_update
    with (s := None) (tx := sampleEdit "{" 1).
  - apply (reachable_create (json5ParseCache SampleTree sample_parse)).
  - reflexivity.
Qed.

(** The entry made by editing the empty cache into [{] holds an error. *)
Lemma cache_entry_has_error_or_value_witness :
  err (mkCache (Some (eofError 1 2)) (@None Json)) <> None
  \/ obj (mkCache (Some (eofError 1 2)) (@None Json)) <> None.
Proof.
  exact (cache_entry_has_error_or_value Json SampleTree sample_parse
           (Some (mkCache (Some (eofError 1 2)) None))
           (mkCache (Some (eofError 1 2)) None)
           sample_error_entry_reachable eq_refl).
Defined.

(** With that entry, a parser that accepts everything changes nothing. *)
Lemma lint_on_cache_entry_never_parses_witness :
  json5ParseLinter (fun _ => Normal JNull) (Some quietLinter)
    (sampleView "{" (Some (Some (mkCache (Some (eofError 1 2)) None))))
  = json5ParseLinter sample_parse (Some quietLinter)
      (sampleView "{" (Some (Some (mkCache (Some (eofError 1 2)) None)))).
Proof.
  exact (lint_on_cache_entry_never_parses Json unit SampleTree sample_parse
           (Some quietLinter)
           (sampleView "{" (Some (Some (mkCache (Some (eofError 1 2)) None))))
           (mkCache (Some (eofError 1 2)) None) (fun _ => Normal JNull)
           sample_error_entry_reachable eq_refl).
Defined.

(** The document [{], linted with the cache of the edit that made it and
    linted without a cache. *)
Lemma updated_cache_agrees_with_no_cache_witness :
  json5ParseLinter sample_parse (Some quietLinter)
    (withField (sampleView "{" None)
       (Some (Some (mkCache (Some (eofError 1 2)) None))))
  = json5ParseLinter sample_parse (Some quietLinter)
      (withField (sampleView "{" None) None).
Proof.
  exact (updated_cache_agrees_with_no_cache Json unit SampleTree
           sample_parse (Some quietLinter) (sampleView "{" None)
           None (Some (mkCache (Some (eofError 1 2)) None))
           (sampleEdit "{" 1) None
           eq_refl eq_refl eq_refl (or_intror eq_refl) (or_introl eq_refl)).
Defined.

(** The error of [{] in the cache: a failing structural linter, another
    kept value and another parser give the same diagnostic. *)
Lemma cached_error_decides_lint_witness :
  json5ParseLinter (fun _ => Normal JNull) (Some failingLinter)
    (withField
       (sampleView "{" (Some (Some (mkCache (Some (eofError 1 2)) None))))
       (Some (Some (mkCache (Some (eofError 1 2)) (Some JNull)))))
  = json5ParseLinter sample_parse (Some quietLinter)
      (sampleView "{" (Some (Some (mkCache (Some (eofError 1 2)) None)))).
Proof.
  exact (cached_error_decides_lint Json unit SampleTree sample_parse
           (Some quietLinter) (Some failingLinter)
           (sampleView "{" (Some (Some (mkCache (Some (eofError 1 2)) None))))
           (mkCache (Some (eofError 1 2)) None) (eofError 1 2) (Some JNull)
           (fun _ => Normal JNull) eq_refl eq_refl).
Defined.

(** The document [{}] and a structural linter that throws: thrown on with
    the value in the cache, shown as a diagnostic at offset 0 without. *)
Lemma linter_exception_depends_on_cache_witness :
  json5ParseLinter sample_parse (Some failingLinter)
    (withField (sampleView "{}" None)
       (Some (Some (mkCache None (Some (JObject []))))))
  = Throw (JsError.make JsError.TypeError "schema is not defined" None None)
  /\ json5ParseLinter sample_parse (Some failingLinter)
       (withField (sampleView "{}" None) (Some None))
     = Normal (Immediate [errorAt 0 "schema is not defined"]).
Proof.
  exact (linter_exception_depends_on_cache Json unit SampleTree sample_parse
           failingLinter (sampleView "{}" None) (JObject [])
           (JsError.make JsError.TypeError "schema is not defined" None None)
           (Some None) (fun _ => eq_refl) eq_refl eq_refl
           (or_intror eq_refl)).
Defined.

(** ** The patterns of the language definition *)

Lemma matchMany_spec (class : ascii -> bool) (k : string -> bool)
  (s : string) :
  matchMany class k s = true
  <-> exists ws t, s = (ws ++ t)%string
                   /\ allOf class ws = true /\ k t = true.
Proof.
  split.
  - induction s as [|c s IH]; cbn [matchMany]; intro H.
    + rewrite orb_false_r in H.
      exists EmptyString, EmptyString. repeat split; assumption.
    + apply orb_true_iff in H. destruct H as [Hk | Hmore].
      * exists EmptyString, (String c s). repeat split; assumption.
      * apply andb_true_iff in Hmore. destruct Hmore as [Hc Hs].
        destruct (IH Hs) as (ws & t & -> & Hws & Hk).
        exists (String c ws), t. cbn [append allOf]. rewrite Hc, Hws.
        repeat split; assumption.
  - intros (ws & t & -> & Hws & Hk).
    induction ws as [|c ws IH].
    + cbn [append]. destruct t; cbn [matchMany]; rewrite Hk; reflexivity.
    + cbn [allOf] in Hws. apply andb_true_iff in Hws.
      destruct Hws as [Hc Hws].
      cbn [append matchMany]. rewrite Hc, (IH Hws).
      apply orb_true_r.
Qed.

Lemma isChar_eq (c a : ascii) : isChar c a = true <-> a = c.
Proof.
  unfold isChar. rewrite Ascii.eqb_eq. split; congruence.
Qed.

(** X13.  [indentOnInput] accepts exactly the strings made of white space
    followed by one closing brace or bracket, and nothing after it. *)
Theorem indentOnInput_accepts (s : string) :
  test indentOnInput s = true
  <-> exists ws c, s = (ws ++ String c EmptyString)%string
                   /\ allOf isSpace ws = true
                   /\ (c = "}"%char \/ c = "]"%char).
Proof.
  unfold test, indentOnInput. cbn [atoms toEnd matchAtoms].
  rewrite matchMany_spec. split.
  - intros (ws & t & -> & Hws & Hk).
    destruct t as [|c t]; [discriminate|].
    apply andb_true_iff in Hk. destruct Hk as [Hc Ht].
    destruct t; [|discriminate].
    exists ws, c. repeat split; [assumption|].
    unfold isCloser in Hc. apply orb_true_iff in Hc.
    destruct Hc as [Hc | Hc]; apply isChar_eq in Hc; auto.
  - intros (ws & c & -> & Hws & Hc).
    exists ws, (String c EmptyString). repeat split; [assumption|].
    cbn [isEmpty]. rewrite andb_true_r. unfold isCloser.
    destruct Hc as [-> | ->]; reflexivity.
Qed.

Lemma except_accepts (closer : ascii) (s : string) :
  test (mkPattern [Many isSpace; One (isChar closer)] false) s = true
  <-> exists ws t, s = (ws ++ String closer t)%string
                   /\ allOf isSpace ws = true.
Proof.
  unfold test. cbn [atoms toEnd matchAtoms].
  rewrite matchMany_spec. split.
  - intros (ws & t & -> & Hws & Hk).
    destruct t as [|c t]; [discriminate|].
    rewrite andb_true_r in Hk. apply isChar_eq in Hk. subst c.
    exists ws, t. split; [reflexivity|assumption].
  - intros (ws & t & -> & Hws).
    exists ws, (String closer t). repeat split; [assumption|].
    rewrite andb_true_r. now apply isChar_eq.
Qed.

(** X14.  The [except] pattern of objects accepts exactly the strings whose
    first character after white space is a closing brace, that of arrays
    those where it is a closing bracket; what follows plays no part. *)
Theorem except_accepts_closer_first (s : string) :
  (test objectExcept s = true
   <-> exists ws t, s = (ws ++ String "}" t)%string
                    /\ allOf isSpace ws = true)
  /\ (test arrayExcept s = true
      <-> exists ws t, s = (ws ++ String "]" t)%string
                       /\ allOf isSpace ws = true).
Proof.
  split; apply except_accepts.
Qed.

(** X15.  A string that [indentOnInput] accepts is accepted by the [except]
    pattern of objects or by that of arrays: the line whose typing makes
    the editor indent again is a line those indentation rules set apart. *)
Theorem indentOnInput_implies_except (s : string) :
  test indentOnInput s = true ->
  test objectExcept s = true \/ test arrayExcept s = true.
Proof.
  unfold test at 1. unfold indentOnInput. cbn [atoms toEnd matchAtoms].
  rewrite matchMany_spec.
  intros (ws & t & -> & Hws & Hk).
  destruct t as [|c t]; [discriminate|].
  apply andb_true_iff in Hk. destruct Hk as [Hc _].
  unfold isCloser in Hc. apply orb_true_iff in Hc.
  destruct Hc as [Hc | Hc]; apply isChar_eq in Hc; subst c.
  - left. apply except_accepts. now exists ws, t.
  - right. apply except_accepts. now exists ws, t.
Qed.

Lemma allOf_split (class : ascii -> bool) (ws1 ws2 t1 t2 : string)
  (c1 c2 : ascii) :
  (ws1 ++ String c1 t1)%string = (ws2 ++ String c2 t2)%string ->
  allOf class ws1 = true ->
  allOf class ws2 = true ->
  class c1 = false ->
  class c2 = false ->
  c1 = c2.
Proof.
  revert ws2.
  induction ws1 as [|a ws1 IH]; intros ws2 Heq H1 H2 Hc1 Hc2.
  - destruct ws2 as [|b ws2]; cbn [append] in Heq.
    + congruence.
    + injection Heq as <- _. cbn [allOf] in H2.
      rewrite Hc1 in H2. discriminate.
  - destruct ws2 as [|b ws2]; cbn [append] in Heq.
    + injection Heq as -> _. cbn [allOf] in H1.
      rewrite Hc2 in H1. discriminate.
    + injection Heq as _ Heq. cbn [allOf] in H1, H2.
      apply andb_true_iff in H1. apply andb_true_iff in H2.
      apply (IH ws2); tauto.
Qed.

(** X16.  No string is accepted by both [except] patterns. *)
Theorem except_patterns_exclusive (s : string) :
  test objectExcept s && test arrayExcept s = false.
Proof.
  destruct (test objectExcept s) eqn:Hobj; [|reflexivity].
  destruct (test arrayExcept s) eqn:Harr; [|reflexivity].
  apply except_accepts in Hobj. apply except_accepts in Harr.
  destruct Hobj as (ws1 & t1 & Heq1 & Hws1).
  destruct Harr as (ws2 & t2 & Heq2 & Hws2).
  rewrite Heq1 in Heq2.
  pose proof (allOf_split isSpace ws1 ws2 t1 t2 "}" "]" Heq2 Hws1 Hws2
                eq_refl eq_refl) as Habs.
  discriminate Habs.
Qed.

(** A closing brace after two spaces. *)
Lemma indentOnInput_implies_except_witness :
  test objectExcept "  }" = true \/ test arrayExcept "  }" = true.
Proof.
  exact (indentOnInput_implies_except "  }" eq_refl).
Defined.
